(** * Order processor: a shallow embedding of [internal/processor/processor.go]

    The processor reads a file of JSON orders line by line, keeps the orders
    whose symbol and side match the configuration, issues one HTTP GET per
    kept order (with retries), appends the response bodies to an output file
    and finally replays the orders that failed.

    The embedding threads an explicit [State] (the trace of effects performed
    so far and the bytes written to the output file) through the functions of
    the source.  Everything the program cannot control (the file system, the
    JSON decoder, the HTTP endpoint, the output device) is a field of a
    [World] record, so every theorem holds for all behaviours of these
    collaborators unless a hypothesis restricts them. *)

From Equations Require Import Equations.
From Stdlib Require Import List ZArith Lia String Ascii Bool Floats Sorted.
Import ListNotations.

Local Open Scope Z_scope.

(** ** Go's [int] and [time.Duration] *)

Module GoInt.

(** [int] and [int64] are 64-bit two's complement integers (the program is
    built for 64-bit targets); arithmetic wraps around. *)
Definition wrap64 (z : Z) : Z := (z + 2 ^ 63) mod 2 ^ 64 - 2 ^ 63.

Definition min_int : Z := - 2 ^ 63.
Definition max_int : Z := 2 ^ 63 - 1.

Definition in_int (z : Z) : Prop := min_int <= z <= max_int.

Definition add (a b : Z) : Z := wrap64 (a + b).
Definition mul (a b : Z) : Z := wrap64 (a * b).

(** [time.Second], a [time.Duration] counted in nanoseconds. *)
Definition Second : Z := 1000000000.

(** The largest number of whole seconds a [time.Duration] can hold. *)
Definition max_seconds : Z := 9223372036.

End GoInt.

(** ** The functions of package [strings] the processor calls *)

Module GoStrings.

Local Open Scope string_scope.

(** A Go string is a sequence of bytes; [ascii] is an 8-bit byte here. *)
Definition byte_is (n : nat) (a : ascii) : bool := Nat.eqb (nat_of_ascii a) n.

Definition byte_in (lo hi : nat) (a : ascii) : bool :=
  Nat.leb lo (nat_of_ascii a) && Nat.leb (nat_of_ascii a) hi.

(** [strings.TrimRight(s, cutset)] for a cutset made of one ASCII byte [c]
    (the only use in the source is [strings.TrimRight(p.BaseURL, "/")]):
    the library then drops bytes equal to [c] from the end of [s] until the
    last byte differs or [s] is empty. *)
Fixpoint TrimRight (s : string) (c : ascii) : string :=
  match s with
  | EmptyString => EmptyString
  | String a s' =>
      match TrimRight s' c with
      | EmptyString => if Ascii.eqb a c then EmptyString else String a EmptyString
      | t => String a t
      end
  end.

(** White space as [unicode.IsSpace] defines it, recognised on the UTF-8
    encoding: the one-byte runes TAB, LF, VT, FF, CR and SPACE ... *)
Definition isSpace1 (a : ascii) : bool := byte_in 9 13 a || byte_is 32 a.

(** ... the two-byte runes U+0085 and U+00A0 ... *)
Definition isSpace2 (a b : ascii) : bool :=
  byte_is 194 a && (byte_is 133 b || byte_is 160 b).

(** ... and the three-byte runes U+1680, U+2000 to U+200A, U+2028, U+2029,
    U+202F, U+205F and U+3000. *)
Definition isSpace3 (a b c : ascii) : bool :=
  (byte_is 225 a && byte_is 154 b && byte_is 128 c)
  || (byte_is 226 a && byte_is 128 b
      && (byte_in 128 138 c || byte_is 168 c || byte_is 169 c || byte_is 175 c))
  || (byte_is 226 a && byte_is 129 b && byte_is 159 c)
  || (byte_is 227 a && byte_is 128 b && byte_is 128 c).

(** Whether [strings.TrimSpace(s)] is the empty string.  Trimming from the
    left decodes one rune after the other and stops at the first that is not
    white space (an invalid byte decodes to U+FFFD, which is not), so the
    result is empty exactly when the whole of [s] is a sequence of
    white-space runes. *)
Fixpoint TrimSpace_is_empty (s : string) : bool :=
  match s with
  | EmptyString => true
  | String a s1 =>
      if isSpace1 a then TrimSpace_is_empty s1
      else
        match s1 with
        | EmptyString => false
        | String b s2 =>
            if isSpace2 a b then TrimSpace_is_empty s2
            else
              match s2 with
              | EmptyString => false
              | String c s3 =>
                  if isSpace3 a b c then TrimSpace_is_empty s3 else false
              end
        end
  end.

(** A run of [n] copies of the byte [c]. *)
Fixpoint replicate (n : nat) (c : ascii) : string :=
  match n with
  | O => EmptyString
  | S n' => String c (replicate n' c)
  end.

Definition slash : ascii := "/"%char.
Definition newline : string := String (ascii_of_nat 10) EmptyString.

End GoStrings.

(** ** [models.Order] *)

Module Models.

(** [time.Time] is never inspected by the processor; it is kept as the
    instant in nanoseconds from the zero [Time]. *)
Definition Time : Type := Z.

Record Order : Type := mkOrder {
  OrderID : string;
  Symbol : string;
  Quantity : Z;
  Price : float;
  Side : string;
  Timestamp : Time
}.

End Models.

(** ** Package [processor] *)

Module Processor.

Import GoInt GoStrings Models.

(** The configuration fields of [Processor] ([Logger], [client] and
    [outputWriter] are the effects recorded in [State]). *)
Record Processor : Type := mkProcessor {
  InputFile : string;
  OutputFile : string;
  Symbol : string;
  Side : string;
  Retries : Z;
  Timeout : Z;
  Insecure : bool;
  BaseURL : string
}.

(** The [error] values [Process] and [processOrder] return.  An error of a
    collaborator is carried as its message. *)
Inductive error : Type :=
| ErrOpenInput (err : string)      (* "failed to open input file: %w" *)
| ErrCreateOutput (err : string)   (* "failed to create output file: %w" *)
| ErrReadInput (err : string)      (* "error reading input file: %w" *)
| ErrRequest (err : string)        (* the error of [client.Get], as it is *)
| ErrNon2XX (StatusCode : Z)       (* "received non-2XX response: %d" *)
| ErrReadBody (err : string)       (* "failed to read response body: %w" *)
| ErrWriteOutput (err : string).   (* "failed to write to output file: %w" *)

(** *** The collaborators *)

(** What [io.ReadAll(resp.Body)] returns. *)
Inductive ReadAllResult : Type :=
| ReadAllOk (body : string)
| ReadAllErr (err : string).

(** What [p.client.Get(url)] returns: an error (no response: connection,
    DNS, TLS or timeout failure) or a response with its status code and the
    outcome of reading its body. *)
Inductive GetResult : Type :=
| GetErr (err : string)
| GetResp (StatusCode : Z) (Body : ReadAllResult).

(** What the write behind [fmt.Fprintf(p.outputWriter, ...)] returns: all
    bytes written, or an error after the first [n] bytes. *)
Inductive WriteResult : Type :=
| WriteOk
| WriteErr (n : nat) (err : string).

(** What [os.Open] followed by scanning with [bufio.Scanner] yields: an
    error on opening, or the lines the scanner delivers until [Scan]
    returns false, and the value of [scanner.Err()] at that point. *)
Inductive OpenResult : Type :=
| OpenErr (err : string)
| OpenOk (lines : list string) (scanErr : option string).

Record World : Type := mkWorld {
  (* [os.Open(path)] and the scan of the file *)
  os_Open : string -> OpenResult;
  (* [os.Create(path)]: the error, if any *)
  os_Create : string -> option string;
  (* [json.Unmarshal([]byte(line), &order)]: the order or the error *)
  json_Unmarshal : string -> Order + string;
  (* [client.Get(url)], given the number of requests issued before *)
  client_Get : nat -> string -> GetResult;
  (* the write to the output file, given the number of writes before *)
  file_Write : nat -> string -> WriteResult
}.

(** *** Effects *)

Inductive Level : Type := DebugLevel | InfoLevel | WarnLevel | ErrorLevel.

(** The log calls of the source, one constructor per format string, with
    the arguments of the call. *)
Inductive Message : Type :=
| MsgNotJSON (lineNum : Z) (err : string)
    (* "Line %d is not valid JSON: %v" *)
| MsgProcessing (order : Order)
    (* "Processing order %s: %s %d %s at $%.2f" *)
| MsgAddToQueue (id : string) (err : error)
    (* "Failed to process order %s, adding to retry queue: %v" *)
| MsgRetryCount (retryCount maxRetries : Z)
    (* "Current retry count: %d, Max retries: %d" *)
| MsgRequestFailed (id : string) (retry maxRetries : Z) (err : string)
    (* "Request failed for order %s (retry %d/%d): %v" *)
| MsgSuccess (id : string)
    (* "Successfully processed order %s" *)
| MsgQueue (len : Z)
    (* "Processing retry queue with %d orders" *)
| MsgRetryAttempt (attempt maxRetries : Z) (id : string)
    (* "Retry attempt %d/%d for order %s" *)
| MsgRetryFailed (id : string) (err : error)
    (* "Retry failed for order %s: %v" *)
| MsgExceeded (id : string).
    (* "Exceeded maximum retries for order %s" *)

Inductive Event : Type :=
| EvGet (url : string)             (* [p.client.Get(url)] *)
| EvSleep (d : Z)                  (* [time.Sleep(d)], [d] in nanoseconds *)
| EvWrite (data : string)          (* a write of [data] to the output file *)
| EvLog (lvl : Level) (m : Message).

(** The effects performed so far, oldest first, and the bytes the run has
    put into the output file. *)
Record State : Type := mkState {
  trace : list Event;
  output : string
}.

Definition init : State := mkState [] EmptyString.

Definition emit (e : Event) (st : State) : State :=
  mkState (trace st ++ [e]) (output st).

Definition log (lvl : Level) (m : Message) (st : State) : State :=
  emit (EvLog lvl m) st.

Definition isWrite (e : Event) : bool :=
  match e with EvWrite _ => true | _ => false end.

(** The URLs requested, the durations slept and the data of the writes, in
    order. *)
Definition gets (t : list Event) : list string :=
  flat_map (fun e => match e with EvGet u => [u] | _ => [] end) t.

Definition sleeps (t : list Event) : list Z :=
  flat_map (fun e => match e with EvSleep d => [d] | _ => [] end) t.

Definition writes (t : list Event) : list string :=
  flat_map (fun e => match e with EvWrite d => [d] | _ => [] end) t.

(** [fmt.Fprintf(p.outputWriter, "%s\n", string(body))]: one write of the
    formatted bytes; on an error the file has received a prefix of them. *)
Definition Fprintf (W : World) (data : string) (st : State) : option string * State :=
  let st1 := emit (EvWrite data) st in
  match file_Write W (List.length (writes (trace st))) data with
  | WriteOk => (None, mkState (trace st1) (output st ++ data))
  | WriteErr n err =>
      (Some err, mkState (trace st1) (output st ++ String.substring 0 n data))
  end.

Section Run.

Variable p : Processor.
Variable W : World.

(** [fmt.Sprintf("%s/%s", strings.TrimRight(p.BaseURL, "/"), order.OrderID)] *)
Definition requestURL (order : Order) : string :=
  (TrimRight (BaseURL p) slash ++ "/" ++ OrderID order)%string.

(** [resp.StatusCode < 200 || resp.StatusCode >= 300] *)
Definition non2XX (code : Z) : bool := (code <? 200) || (code >=? 300).

(** The part of [processOrder] after a response has been received. *)
Definition handleResponse (order : Order) (code : Z) (body : ReadAllResult)
           (st : State) : option error * State :=
  if non2XX code then (Some (ErrNon2XX code), st)
  else
    match body with
    | ReadAllErr err => (Some (ErrReadBody err), st)
    | ReadAllOk b =>
        match Fprintf W (b ++ newline)%string st with
        | (Some err, st1) => (Some (ErrWriteOutput err), st1)
        | (None, st1) => (None, log InfoLevel (MsgSuccess (OrderID order)) st1)
        end
    end.

(** The effects between a failed request and its retry: two log calls
    and [time.Sleep(time.Second * time.Duration(retryCount+1))]. *)
Definition backoff (order : Order) (retryCount : Z) (err : string)
           (st : State) : State :=
  emit (EvSleep (mul Second (retryCount + 1)))
    (log WarnLevel (MsgRequestFailed (OrderID order) (retryCount + 1) (Retries p) err)
       (log DebugLevel (MsgRetryCount retryCount (Retries p)) st)).

(** [processOrder].  The recursive call is guarded by
    [retryCount < p.Retries], so [retryCount + 1] cannot overflow and
    [p.Retries - retryCount] decreases. *)
Equations? processOrder (order : Order) (retryCount : Z) (st : State)
  : option error * State by wf (Z.to_nat (Retries p - retryCount)) lt :=
  processOrder order retryCount st
    with client_Get W (List.length (gets (trace st))) (requestURL order) := {
    | GetErr err with Z_lt_dec retryCount (Retries p) := {
        | left _ :=
            processOrder order (retryCount + 1)
              (backoff order retryCount err (emit (EvGet (requestURL order)) st))
        | right _ :=
            (Some (ErrRequest err), emit (EvGet (requestURL order)) st) }
    | GetResp code body :=
        handleResponse order code body (emit (EvGet (requestURL order)) st) }.
Proof. lia. Qed.

(** The inner loop of [processRetryQueue] for one queued order,
    [for retryAttempts < p.Retries { ... }], entered with the counter at
    [retryAttempts]; it returns the counter and the state at the exit.  The
    counter grows only under the guard [retryAttempts < p.Retries], so it
    cannot overflow. *)
Equations? retryLoop (order : Order) (retryAttempts : Z) (st : State)
  : Z * State by wf (Z.to_nat (Retries p - retryAttempts)) lt :=
  retryLoop order retryAttempts st with Z_lt_dec retryAttempts (Retries p) := {
    | right _ := (retryAttempts, st)
    | left _
        with processOrder order retryAttempts
               (log InfoLevel
                  (MsgRetryAttempt (retryAttempts + 1) (Retries p) (OrderID order)) st) := {
        | (Some err, st1) :=
            retryLoop order (retryAttempts + 1)
              (log WarnLevel (MsgRetryFailed (OrderID order) err) st1)
        | (None, st1) := (retryAttempts, st1) } }.
Proof. lia. Qed.

(** The body of [for _, order := range queue]. *)
Definition retryOrder (order : Order) (st : State) : State :=
  let '(retryAttempts, st1) := retryLoop order 0 st in
  if retryAttempts >=? Retries p
  then log ErrorLevel (MsgExceeded (OrderID order)) st1
  else st1.

(** [processRetryQueue]. *)
Definition processRetryQueue (queue : list Order) (st : State) : State :=
  match queue with
  | [] => st
  | _ :: _ =>
      fold_left (fun s order => retryOrder order s) queue
        (log InfoLevel (MsgQueue (Z.of_nat (List.length queue))) st)
  end.

(** [order.Symbol == p.Symbol && order.Side == p.Side] *)
Definition matches (order : Order) : bool :=
  (Models.Symbol order =? Symbol p)%string && (Models.Side order =? Side p)%string.

(** The body of [for scanner.Scan()] for the line [line], [lineNum] being
    the counter after [lineNum++]. *)
Definition lineStep (line : string) (lineNum : Z) (retryQueue : list Order)
           (st : State) : list Order * State :=
  if TrimSpace_is_empty line then (retryQueue, st)
  else
    match json_Unmarshal W line with
    | inr err => (retryQueue, log WarnLevel (MsgNotJSON lineNum err) st)
    | inl order =>
        if matches order then
          match processOrder order 0 (log InfoLevel (MsgProcessing order) st) with
          | (Some err, st1) =>
              (retryQueue ++ [order],
               log WarnLevel (MsgAddToQueue (OrderID order) err) st1)
          | (None, st1) => (retryQueue, st1)
          end
        else (retryQueue, st)
    end.

(** [for scanner.Scan() { lineNum++; ... }] over the lines the scanner
    delivers, [lineNum] being the counter before the loop. *)
Fixpoint scanLoop (lines : list string) (lineNum : Z) (retryQueue : list Order)
         (st : State) : list Order * State :=
  match lines with
  | [] => (retryQueue, st)
  | line :: rest =>
      let '(retryQueue1, st1) := lineStep line (add lineNum 1) retryQueue st in
      scanLoop rest (add lineNum 1) retryQueue1 st1
  end.

(** [Process]: the error returned ([None] for [nil]) and the final state. *)
Definition Process : option error * State :=
  match os_Open W (InputFile p) with
  | OpenErr err => (Some (ErrOpenInput err), init)
  | OpenOk lines scanErr =>
      match os_Create W (OutputFile p) with
      | Some err => (Some (ErrCreateOutput err), init)
      | None =>
          let '(retryQueue, st) := scanLoop lines 0 [] init in
          match scanErr with
          | Some err => (Some (ErrReadInput err), st)
          | None => (None, processRetryQueue retryQueue st)
          end
      end
  end.

(** *** Definitions the statements below compare the source with *)

(** One invocation of [processOrder] per attempt index of [idxs], in order,
    as the replay loop frames them: the announcement before, the warning
    after a failure, stopping at the first success.  The result tells
    whether every invocation failed. *)
Fixpoint replayAt (order : Order) (idxs : list Z) (announced : Z) (st : State)
  : bool * State :=
  match idxs with
  | [] => (true, st)
  | i :: rest =>
      match processOrder order i
              (log InfoLevel
                 (MsgRetryAttempt (announced + 1) (Retries p) (OrderID order)) st) with
      | (Some err, st1) =>
          replayAt order rest (announced + 1)
            (log WarnLevel (MsgRetryFailed (OrderID order) err) st1)
      | (None, st1) => (false, st1)
      end
  end.

(** The attempt indices [from], [from + 1], ... ([n] of them). *)
Fixpoint countFrom (from : Z) (n : nat) : list Z :=
  match n with
  | O => []
  | S n' => from :: countFrom (from + 1) n'
  end.

(** The replay of one order by invocations at the attempt indices [idxs],
    with the report that closes the replay when all of them failed. *)
Definition retryOrder_at (idxs : list Z) (order : Order) (st : State) : State :=
  let '(exhausted, st1) := replayAt order idxs 0 st in
  if exhausted then log ErrorLevel (MsgExceeded (OrderID order)) st1 else st1.

(** The replay of one order as the specification words it: up to
    [p.Retries] invocations of [processOrder], every one at the same attempt
    index [fixedIndex]. *)
Definition retryOrder_fixed_index (fixedIndex : Z) (order : Order) (st : State)
  : State :=
  retryOrder_at (repeat fixedIndex (Z.to_nat (Retries p))) order st.

(** The sleep of the retry policy after a failed attempt at index
    [retryCount]: [retryCount + 1] seconds. *)
Definition backoffSleep (retryCount : Z) : Event :=
  EvSleep (mul Second (retryCount + 1)).

(** The events of [m] inline retries in a row for [order], the first after
    a failed attempt at index [retryCount]; [errs k] is the error of the
    request number [k] of the run and [n] the number of the failed one. *)
Fixpoint retryRounds (order : Order) (errs : nat -> string) (retryCount : Z)
         (n m : nat) : list Event :=
  match m with
  | O => []
  | S m' =>
      [EvLog DebugLevel (MsgRetryCount retryCount (Retries p));
       EvLog WarnLevel
         (MsgRequestFailed (OrderID order) (retryCount + 1) (Retries p) (errs n));
       backoffSleep retryCount;
       EvGet (requestURL order)]
      ++ retryRounds order errs (retryCount + 1) (S n) m'
  end.

(** The orders the loop of [Process] keeps: the lines that are not blank,
    decode, and pass the filter. *)
Definition keptOrders (lines : list string) : list Order :=
  flat_map (fun line =>
              if TrimSpace_is_empty line then []
              else match json_Unmarshal W line with
                   | inl order => if matches order then [order] else []
                   | inr _ => []
                   end) lines.

End Run.

(** [st2] is [st1] followed by more effects: nothing recorded is ever
    changed, neither in the trace nor in the output file. *)
Definition extends (st1 st2 : State) : Prop :=
  (exists evs, trace st2 = trace st1 ++ evs)
  /\ (exists s, output st2 = (output st1 ++ s)%string).

(** Between [st1] and [st2] the URL [url] has been requested. *)
Definition requestedSince (st1 : State) (url : string) (st2 : State) : Prop :=
  exists before after, trace st2 = trace st1 ++ before ++ EvGet url :: after.

(** The output file holds the bytes of the writes, in the order of the
    writes. *)
Definition outputInOrder (st : State) : Prop :=
  output st = String.concat EmptyString (writes (trace st)).

(** [s] does not end with the byte [c]. *)
Fixpoint noTrailing (c : ascii) (s : string) : bool :=
  match s with
  | EmptyString => true
  | String a EmptyString => negb (Ascii.eqb a c)
  | String _ s' => noTrailing c s'
  end.

(** [NewProcessor]; the logger is the log recorded in [State]. *)
Definition NewProcessor (inputFile outputFile symbol side baseURL : string)
           (retries : Z) (timeout : Z) (insecure : bool) : Processor :=
  {| InputFile := inputFile;
     OutputFile := outputFile;
     Symbol := symbol;
     Side := side;
     Retries := retries;
     Timeout := timeout;
     Insecure := insecure;
     BaseURL := baseURL |}.

(** [l1] is [l2] with some elements left out, the others in their order. *)
Inductive subsequence {A : Type} : list A -> list A -> Prop :=
| subsequence_nil : subsequence [] []
| subsequence_skip (x : A) (l1 l2 : list A) :
    subsequence l1 l2 -> subsequence l1 (x :: l2)
| subsequence_keep (x : A) (l1 l2 : list A) :
    subsequence l1 l2 -> subsequence (x :: l1) (x :: l2).

(** The event is a final report on [order]: delivered, or given up. *)
Definition isReportOf (order : Order) (e : Event) : Prop :=
  e = EvLog InfoLevel (MsgSuccess (OrderID order))
  \/ e = EvLog ErrorLevel (MsgExceeded (OrderID order)).

(** The last events of a call that delivers [order] with the body [body]. *)
Definition delivery (p : Processor) (order : Order) (body : string) : list Event :=
  [EvGet (requestURL p order);
   EvWrite (body ++ newline)%string;
   EvLog InfoLevel (MsgSuccess (OrderID order))].

(** The event is the warning for a line that does not decode. *)
Definition isNotJSONWarning (e : Event) : Prop :=
  exists lineNum err, e = EvLog WarnLevel (MsgNotJSON lineNum err).


(** The lines that delivering the responses to the requests number [from],
    [from + 1], ... ([count] of them) puts into the output file, [bodies k]
    being the body of the response to the request number [k]. *)
Definition written (bodies : nat -> string) (from count : nat) : string :=
  String.concat EmptyString
    (map (fun k => (bodies k ++ newline)%string) (seq from count)).

End Processor.

(** ** Package [cmd]: the root command *)

Module Cmd.

Import GoInt Models Processor.
Local Open Scope string_scope.

(** The flag variables of the package, as [Run] finds them after the
    command line has been parsed. *)
Record Flags : Type := mkFlags {
  inputFile : string;
  outputFile : string;
  symbol : string;
  side : string;
  retries : Z;
  timeout : Z;
  insecure : bool;
  verbose : bool;
  baseURL : string
}.

(** The defaults [init] registers for the flags. *)
Definition defaultFlags : Flags :=
  {| inputFile := "transaction-log.txt";
     outputFile := "output.txt";
     symbol := "TSLA";
     side := "sell";
     retries := 3;
     timeout := 30 * Second;
     insecure := false;
     verbose := false;
     baseURL := "https://example.com/api" |}.

(** The log calls of [Run], with their arguments. *)
Inductive CmdMessage : Type :=
| MsgStarting                         (* "Starting order processor" *)
| MsgInputFile (file : string)        (* "Input file: %s" *)
| MsgOutputFile (file : string)       (* "Output file: %s" *)
| MsgFiltering (symbol side : string) (* "Filtering for symbol: %s, side: %s" *)
| MsgSettings (retries timeout : Z) (insecure : bool)
                                      (* "Retries: %d, Timeout: %s, Insecure: %v" *)
| MsgProcessingFailed (err : error)   (* "Processing failed: %v", by [Fatalf] *)
| MsgCompleted.                       (* "Processing completed successfully" *)

(** What a run of the command leaves: the level the logger was set to, the
    messages logged before the processor starts, the state the processor
    ends in, the message logged after it and the exit status of the
    process ([logger.Fatalf] logs and exits with status 1). *)
Record Outcome : Type := mkOutcome {
  loggerLevel : Level;
  banner : list CmdMessage;
  processing : State;
  closing : CmdMessage;
  exitStatus : Z
}.

(** The [Run] function of [rootCmd]. *)
Definition Run (f : Flags) (W : World) : Outcome :=
  let level := if verbose f then DebugLevel else InfoLevel in
  let banner :=
    [MsgStarting;
     MsgInputFile (inputFile f);
     MsgOutputFile (outputFile f);
     MsgFiltering (symbol f) (side f);
     MsgSettings (retries f) (timeout f) (insecure f)] in
  let proc :=
    NewProcessor (inputFile f) (outputFile f) (symbol f) (side f) (baseURL f)
                 (retries f) (timeout f) (insecure f) in
  match Process proc W with
  | (Some err, st) => mkOutcome level banner st (MsgProcessingFailed err) 1
  | (None, st) => mkOutcome level banner st MsgCompleted 0
  end.

End Cmd.

(** ** Concrete configurations, orders and endpoints for the examples *)

Module Sample.

Import GoInt GoStrings Models Processor.
Local Open Scope string_scope.

Definition quoted (s : string) : string :=
  String (ascii_of_nat 34) (s ++ String (ascii_of_nat 34) EmptyString).

(** The JSON object with the three fields the processor reads. *)
Definition jsonLine (id symbol side : string) : string :=
  "{" ++ quoted "order_id" ++ ":" ++ quoted id ++ ","
      ++ quoted "symbol" ++ ":" ++ quoted symbol ++ ","
      ++ quoted "side" ++ ":" ++ quoted side ++ "}".

(** What decoding [jsonLine id symbol side] gives: the absent fields keep
    their zero values. *)
Definition order (id symbol side : string) : Order :=
  mkOrder id symbol 0 0%float side 0.

Definition order1 : Order := order "1" "TSLA" "sell".
Definition order2 : Order := order "2" "AAPL" "sell".

(** A decoder that knows the two sample lines and rejects the rest. *)
Definition decode (line : string) : Order + string :=
  if line =? jsonLine "1" "TSLA" "sell" then inl order1
  else if line =? jsonLine "2" "AAPL" "sell" then inl order2
  else inr "invalid character".

(** The default configuration of the command line, with two retries. *)
Definition config : Processor :=
  mkProcessor "transaction-log.txt" "output.txt" "TSLA" "sell" 2
              (30 * Second) false "https://example.com/api/".

Definition url1 : string := "https://example.com/api/1".

(** A world whose input file holds [lines] and whose endpoint answers every
    request with [answer]; opening, creating and writing succeed. *)
Definition world (lines : list string) (answer : GetResult) : World :=
  mkWorld (fun _ => OpenOk lines None) (fun _ => None) decode
          (fun _ _ => answer) (fun _ _ => WriteOk).

(** The endpoint is unreachable. *)
Definition refused : GetResult := GetErr "connection refused".

(** The endpoint answers 500. *)
Definition status500 : GetResult := GetResp 500 (ReadAllOk "oops").

(** The endpoint answers 200 with the body [OK]. *)
Definition status200 : GetResult := GetResp 200 (ReadAllOk "OK").

(** The endpoint answers 200 and the connection drops inside the body. *)
Definition brokenBody : GetResult := GetResp 200 (ReadAllErr "unexpected EOF").

(** As [world], but every write to the output file fails after [n] bytes. *)
Definition worldDiskFull (lines : list string) (answer : GetResult) (n : nat) : World :=
  mkWorld (fun _ => OpenOk lines None) (fun _ => None) decode
          (fun _ _ => answer) (fun _ _ => WriteErr n "no space left on device").

End Sample.

(** * Properties of the processor *)

Import GoInt GoStrings Models Processor.

(** ** The request URL *)

Lemma TrimRight_replicate (n : nat) (c : ascii) :
  TrimRight (replicate n c) c = EmptyString.
Proof.
  induction n as [|n IH]; simpl; [reflexivity|].
  rewrite IH, Ascii.eqb_refl. reflexivity.
Qed.

Lemma TrimRight_app_replicate (s : string) (n : nat) (c : ascii) :
  TrimRight (s ++ replicate n c) c = TrimRight s c.
Proof.
  induction s as [|a s IH]; simpl.
  - apply TrimRight_replicate.
  - rewrite IH. reflexivity.
Qed.

Lemma TrimRight_decompose (s : string) (c : ascii) :
  exists n, s = (TrimRight s c ++ replicate n c)%string.
Proof.
  induction s as [|a s [n IH]]; simpl.
  - exists O. reflexivity.
  - destruct (TrimRight s c) as [|b t] eqn:E.
    + destruct (Ascii.eqb_spec a c) as [->|Hne].
      * exists (S n). simpl. rewrite IH at 1. reflexivity.
      * exists n. simpl. rewrite IH at 1. reflexivity.
    + exists n. simpl. rewrite IH at 1. reflexivity.
Qed.

Lemma TrimRight_noTrailing (s : string) (c : ascii) :
  noTrailing c (TrimRight s c) = true.
Proof.
  induction s as [|a s IH]; simpl; [reflexivity|].
  destruct (TrimRight s c) as [|b t] eqn:E.
  - destruct (Ascii.eqb_spec a c) as [->|Hne]; simpl; [reflexivity|].
    destruct (Ascii.eqb_spec a c); [contradiction|reflexivity].
  - exact IH.
Qed.

(** C9. The request URL is the base URL without its trailing slashes,
    followed by one slash and the order's id; hence two configurations
    whose base URLs differ only in the number of trailing slashes request
    the same URL for every order. *)
Theorem requestURL_ignores_trailing_slashes :
  (forall (p : Processor) (order : Order),
      exists (stem : string) (n : nat),
        BaseURL p = (stem ++ replicate n slash)%string
        /\ noTrailing slash stem = true
        /\ requestURL p order = (stem ++ "/" ++ OrderID order)%string)
  /\ (forall (p1 p2 : Processor) (order : Order) (stem : string) (n1 n2 : nat),
         BaseURL p1 = (stem ++ replicate n1 slash)%string ->
         BaseURL p2 = (stem ++ replicate n2 slash)%string ->
         requestURL p1 order = requestURL p2 order).
Proof.
  split.
  - intros p order. destruct (TrimRight_decompose (BaseURL p) slash) as [n Hn].
    exists (TrimRight (BaseURL p) slash), n.
    split; [exact Hn|]. split; [apply TrimRight_noTrailing|reflexivity].
  - intros p1 p2 order stem n1 n2 H1 H2. unfold requestURL.
    rewrite H1, H2, !TrimRight_app_replicate. reflexivity.
Qed.

Lemma requestURL_ignores_trailing_slashes_witness :
  requestURL Sample.config Sample.order1
  = requestURL
      (mkProcessor "in" "out" "TSLA" "sell" 3 0 true "https://example.com/api///")
      Sample.order1.
Proof.
  apply (proj2 requestURL_ignores_trailing_slashes) with
    (stem := "https://example.com/api"%string) (n1 := 1%nat) (n2 := 3%nat);
    reflexivity.
Defined.

(** ** The recursion equations of the source *)

(** [processOrder] satisfies the equation its source text reads as. *)
Lemma processOrder_unfold (p : Processor) (W : World) (order : Order)
      (retryCount : Z) (st : State) :
  processOrder p W order retryCount st =
  match client_Get W (List.length (gets (trace st))) (requestURL p order) with
  | GetErr err =>
      if retryCount <? Retries p
      then processOrder p W order (retryCount + 1)
             (backoff p order retryCount err (emit (EvGet (requestURL p order)) st))
      else (Some (ErrRequest err), emit (EvGet (requestURL p order)) st)
  | GetResp code body =>
      handleResponse W order code body (emit (EvGet (requestURL p order)) st)
  end.
Proof.
  simp processOrder.
  destruct (client_Get W _ _) as [err|code body]; cbn; [|reflexivity].
  destruct (Z_lt_dec retryCount (Retries p)) as [H|H]; cbn.
  - apply Z.ltb_lt in H. rewrite H. reflexivity.
  - apply Z.ltb_nlt in H. rewrite H. reflexivity.
Qed.

(** So does the inner loop of [processRetryQueue]. *)
Lemma retryLoop_unfold (p : Processor) (W : World) (order : Order)
      (retryAttempts : Z) (st : State) :
  retryLoop p W order retryAttempts st =
  if retryAttempts <? Retries p then
    match processOrder p W order retryAttempts
            (log InfoLevel
               (MsgRetryAttempt (retryAttempts + 1) (Retries p) (OrderID order)) st) with
    | (Some err, st1) =>
        retryLoop p W order (retryAttempts + 1)
          (log WarnLevel (MsgRetryFailed (OrderID order) err) st1)
    | (None, st1) => (retryAttempts, st1)
    end
  else (retryAttempts, st).
Proof.
  rewrite retryLoop_equation_1.
  destruct (Z.ltb_spec retryAttempts (Retries p)) as [H|H];
    destruct (Z_lt_dec retryAttempts (Retries p)) as [l|n]; try lia; cbn.
  - destruct (processOrder p W order retryAttempts _) as [[err|] st1]; reflexivity.
  - reflexivity.
Qed.

(** The guard of both recursions keeps the incremented counter in range. *)
Lemma guarded_increment_in_range (counter retries : Z) :
  in_int counter -> in_int retries -> counter < retries ->
  add counter 1 = counter + 1.
Proof.
  unfold in_int, min_int, max_int, add, wrap64. intros H1 H2 H3.
  rewrite Z.mod_small; lia.
Qed.

(** ** Traces and projections *)

Lemma gets_app (t1 t2 : list Event) : gets (t1 ++ t2) = gets t1 ++ gets t2.
Proof. unfold gets. apply flat_map_app. Qed.

Lemma sleeps_app (t1 t2 : list Event) : sleeps (t1 ++ t2) = sleeps t1 ++ sleeps t2.
Proof. unfold sleeps. apply flat_map_app. Qed.

Lemma writes_app (t1 t2 : list Event) : writes (t1 ++ t2) = writes t1 ++ writes t2.
Proof. unfold writes. apply flat_map_app. Qed.

Lemma extends_refl (st : State) : extends st st.
Proof.
  split; [exists []; symmetry; apply app_nil_r|].
  exists EmptyString. clear. induction (output st) as [|a s IH]; simpl; congruence.
Qed.

Lemma string_app_assoc (a b c : string) :
  ((a ++ b) ++ c = a ++ (b ++ c))%string.
Proof. induction a as [|x a IH]; simpl; congruence. Qed.

Lemma extends_trans (st1 st2 st3 : State) :
  extends st1 st2 -> extends st2 st3 -> extends st1 st3.
Proof.
  intros [[e1 H1] [s1 G1]] [[e2 H2] [s2 G2]]. split.
  - exists (e1 ++ e2). rewrite H2, H1, app_assoc. reflexivity.
  - exists (s1 ++ s2)%string. rewrite G2, G1. apply string_app_assoc.
Qed.

Lemma extends_emit (e : Event) (st : State) : extends st (emit e st).
Proof.
  split; [exists [e]; reflexivity|].
  exists EmptyString. simpl. destruct (extends_refl st) as [_ [s Hs]].
  clear. induction (output st) as [|a s IH]; simpl; congruence.
Qed.

Lemma extends_log (lvl : Level) (m : Message) (st : State) : extends st (log lvl m st).
Proof. apply extends_emit. Qed.

Lemma extends_Fprintf (W : World) (data : string) (st : State) :
  extends st (snd (Fprintf W data st)).
Proof.
  unfold Fprintf.
  destruct (file_Write W _ data) as [|n err]; simpl;
    (split; [exists [EvWrite data]; reflexivity|eexists; reflexivity]).
Qed.

Lemma extends_handleResponse (W : World) (order : Order) (code : Z)
      (body : ReadAllResult) (st : State) :
  extends st (snd (handleResponse W order code body st)).
Proof.
  unfold handleResponse. destruct (non2XX code); [apply extends_refl|].
  destruct body as [b|err]; [|apply extends_refl].
  pose proof (extends_Fprintf W (b ++ newline)%string st) as H.
  destruct (Fprintf W _ st) as [[err|] st1]; simpl in *; [exact H|].
  eapply extends_trans; [exact H|apply extends_log].
Qed.

Lemma extends_backoff (p : Processor) (order : Order) (retryCount : Z)
      (err : string) (st : State) :
  extends st (backoff p order retryCount err st).
Proof.
  unfold backoff.
  eapply extends_trans; [apply extends_log|].
  eapply extends_trans; [apply extends_log|apply extends_emit].
Qed.

(** Every call to [processOrder] only adds to the trace and to the output. *)
Lemma extends_processOrder (p : Processor) (W : World) (order : Order)
      (retryCount : Z) (st : State) :
  extends st (snd (processOrder p W order retryCount st)).
Proof.
  apply (processOrder_elim p W (fun _ _ st r => extends st (snd r))).
  - intros o rc s code body _.
    eapply extends_trans; [apply extends_emit|apply extends_handleResponse].
  - intros o rc l s err IH _ _.
    eapply extends_trans; [apply extends_emit|].
    eapply extends_trans; [apply extends_backoff|exact IH].
  - intros o rc n s err _ _. apply extends_emit.
Qed.

Lemma extends_retryLoop (p : Processor) (W : World) (order : Order)
      (retryAttempts : Z) (st : State) :
  extends st (snd (retryLoop p W order retryAttempts st)).
Proof.
  apply (retryLoop_elim p W (fun _ _ st r => extends st (snd r))).
  - intros o ra n s _. apply extends_refl.
  - intros o ra l s err st1 IH Hcall _.
    eapply extends_trans; [apply extends_log|].
    pose proof (extends_processOrder p W o ra
                  (log InfoLevel (MsgRetryAttempt (ra + 1) (Retries p) (OrderID o)) s)) as H.
    rewrite Hcall in H. simpl in H.
    eapply extends_trans; [exact H|].
    eapply extends_trans; [apply extends_log|exact IH].
  - intros o ra l s st1 Hcall _.
    eapply extends_trans; [apply extends_log|].
    pose proof (extends_processOrder p W o ra
                  (log InfoLevel (MsgRetryAttempt (ra + 1) (Retries p) (OrderID o)) s)) as H.
    rewrite Hcall in H. exact H.
Qed.

Lemma extends_retryOrder (p : Processor) (W : World) (order : Order) (st : State) :
  extends st (retryOrder p W order st).
Proof.
  unfold retryOrder. pose proof (extends_retryLoop p W order 0 st) as H.
  destruct (retryLoop p W order 0 st) as [ra st1]. simpl in H.
  destruct (ra >=? Retries p); [|exact H].
  eapply extends_trans; [exact H|apply extends_log].
Qed.

Lemma extends_fold_retryOrder (p : Processor) (W : World) (queue : list Order) :
  forall st, extends st (fold_left (fun s order => retryOrder p W order s) queue st).
Proof.
  induction queue as [|o q IH]; intros st; simpl; [apply extends_refl|].
  eapply extends_trans; [apply extends_retryOrder|apply IH].
Qed.

Lemma extends_processRetryQueue (p : Processor) (W : World) (queue : list Order)
      (st : State) :
  extends st (processRetryQueue p W queue st).
Proof.
  unfold processRetryQueue. destruct queue as [|o q]; [apply extends_refl|].
  eapply extends_trans; [apply extends_log|apply extends_fold_retryOrder].
Qed.

Lemma extends_lineStep (p : Processor) (W : World) (line : string) (lineNum : Z)
      (retryQueue : list Order) (st : State) :
  extends st (snd (lineStep p W line lineNum retryQueue st)).
Proof.
  unfold lineStep. destruct (TrimSpace_is_empty line); [apply extends_refl|].
  destruct (json_Unmarshal W line) as [order|err]; [|apply extends_log].
  destruct (matches p order); [|apply extends_refl].
  pose proof (extends_processOrder p W order 0
                (log InfoLevel (MsgProcessing order) st)) as H.
  destruct (processOrder p W order 0 _) as [[err|] st1]; simpl in *.
  - eapply extends_trans; [apply extends_log|].
    eapply extends_trans; [exact H|apply extends_log].
  - eapply extends_trans; [apply extends_log|exact H].
Qed.

Lemma extends_scanLoop (p : Processor) (W : World) (lines : list string) :
  forall lineNum retryQueue st,
    extends st (snd (scanLoop p W lines lineNum retryQueue st)).
Proof.
  induction lines as [|line rest IH]; intros n q st; simpl; [apply extends_refl|].
  pose proof (extends_lineStep p W line (add n 1) q st) as H.
  destruct (lineStep p W line (add n 1) q st) as [q1 st1]. simpl in H.
  eapply extends_trans; [exact H|apply IH].
Qed.

(** ** Inline retries *)

Lemma gets_retryRounds (p : Processor) (order : Order) (errs : nat -> string) (m : nat) :
  forall retryCount n,
    gets (retryRounds p order errs retryCount n m) = repeat (requestURL p order) m.
Proof.
  induction m as [|m IH]; intros rc n; simpl; [reflexivity|].
  rewrite IH. reflexivity.
Qed.

Lemma sleeps_retryRounds (p : Processor) (order : Order) (errs : nat -> string) (m : nat) :
  forall retryCount n,
    sleeps (retryRounds p order errs retryCount n m)
    = map (mul Second) (countFrom (retryCount + 1) m).
Proof.
  induction m as [|m IH]; intros rc n; simpl; [reflexivity|].
  rewrite IH. reflexivity.
Qed.

Lemma writes_retryRounds (p : Processor) (order : Order) (errs : nat -> string) (m : nat) :
  forall retryCount n, writes (retryRounds p order errs retryCount n m) = [].
Proof.
  induction m as [|m IH]; intros rc n; simpl; [reflexivity|]. apply IH.
Qed.

(** While the endpoint cannot be reached, a call entered at [retryCount]
    requests, then retries once per index left below [p.Retries], and
    returns the error of the last request. *)
Lemma processOrder_unreachable (p : Processor) (W : World) (order : Order)
      (errs : nat -> string) (m : nat) :
  forall retryCount st,
    Z.to_nat (Retries p - retryCount) = m ->
    (forall n, (List.length (gets (trace st)) <= n)%nat ->
               client_Get W n (requestURL p order) = GetErr (errs n)) ->
    processOrder p W order retryCount st
    = (Some (ErrRequest (errs (List.length (gets (trace st)) + m)%nat)),
       mkState (trace st ++ EvGet (requestURL p order)
                  :: retryRounds p order errs retryCount (List.length (gets (trace st))) m)
               (output st)).
Proof.
  induction m as [|m IH]; intros rc st Hm Hget; rewrite processOrder_unfold;
    rewrite (Hget _ (Nat.le_refl _)).
  - destruct (Z.ltb_spec rc (Retries p)) as [H|H]; [lia|].
    rewrite Nat.add_0_r. reflexivity.
  - destruct (Z.ltb_spec rc (Retries p)) as [H|H]; [|lia].
    set (st1 := backoff p order rc (errs (List.length (gets (trace st))))
                  (emit (EvGet (requestURL p order)) st)).
    assert (Hn : List.length (gets (trace st1)) = S (List.length (gets (trace st)))).
    { unfold st1. simpl. rewrite !gets_app, !length_app. simpl. lia. }
    rewrite (IH (rc + 1) st1); [|lia|].
    + rewrite Hn. f_equal; [do 3 f_equal; lia|].
      unfold st1. simpl. f_equal. rewrite <- !app_assoc. reflexivity.
    + intros n Hle. apply Hget. lia.
Qed.

Lemma countFrom_length (from : Z) (n : nat) : List.length (countFrom from n) = n.
Proof. revert from. induction n as [|n IH]; intros from; simpl; [|rewrite IH]; reflexivity. Qed.

Lemma countFrom_bounds (n : nat) :
  forall from k, In k (countFrom from n) -> from <= k < from + Z.of_nat n.
Proof.
  induction n as [|n IH]; intros from k; simpl; [contradiction|].
  intros [<-|Hin]; [lia|]. apply IH in Hin. lia.
Qed.

(** Within the range of [time.Duration] the product with [time.Second] is
    exact. *)
Lemma mul_Second_exact (k : Z) :
  0 <= k <= max_seconds -> mul Second k = Second * k.
Proof.
  unfold mul, wrap64, Second, max_seconds. intros H.
  rewrite Z.mod_small; lia.
Qed.

Lemma seconds_countFrom (n : nat) :
  forall from,
    0 <= from -> from + Z.of_nat n <= max_seconds + 1 ->
    map (mul Second) (countFrom from n) = map (fun k => Second * k) (countFrom from n).
Proof.
  intros from H0 H1. apply map_ext_in. intros k Hk.
  apply countFrom_bounds in Hk. apply mul_Second_exact. lia.
Qed.

Lemma seconds_increasing (n : nat) :
  forall from,
    Sorted.StronglySorted Z.lt (map (fun k => Second * k) (countFrom from n)).
Proof.
  induction n as [|n IH]; intros from; cbn [countFrom map]; constructor; [apply IH|].
  apply Forall_forall. intros d Hd. apply in_map_iff in Hd as [k [<- Hk]].
  apply countFrom_bounds in Hk. cbv beta. unfold Second. lia.
Qed.

(** C1, as stated, fails: with two retries configured, a 500 response at
    attempt index 0 ends the call after that one request, without a sleep,
    whereas an unreachable endpoint makes the same call sleep and retry. *)
Lemma non2XX_retried_like_transport_failure_counterexample :
  0 < Retries Sample.config
  /\ processOrder Sample.config (Sample.world [] Sample.status500) Sample.order1 0 init
     = (Some (ErrNon2XX 500), mkState [EvGet Sample.url1] EmptyString)
  /\ ~ In (backoffSleep 0)
         (trace (snd (processOrder Sample.config (Sample.world [] Sample.status500)
                        Sample.order1 0 init)))
  /\ In (backoffSleep 0)
        (trace (snd (processOrder Sample.config (Sample.world [] Sample.refused)
                       Sample.order1 0 init))).
Proof.
  split; [reflexivity|]. split; [reflexivity|]. split.
  - intros [H|[]]. discriminate H.
  - right. right. right. left. reflexivity.
Qed.

(** C1, amended.  A response with a status outside 200-299 is not retried
    inline: whatever the attempt index, [processOrder] returns the failure
    right after the request, without sleeping, and the first pass puts the
    order into the retry queue.  Only a failed request (no response) is
    retried inline: while [retryCount < p.Retries] the call sleeps
    [retryCount + 1] seconds and goes on at [retryCount + 1]; otherwise it
    returns the error. *)
Theorem non2XX_fails_without_inline_retry
        (p : Processor) (W : World) (order : Order) (retryCount : Z) (st : State) :
  let url := requestURL p order in
  let answer := client_Get W (List.length (gets (trace st))) url in
  (forall code body,
      answer = GetResp code body -> non2XX code = true ->
      processOrder p W order retryCount st
      = (Some (ErrNon2XX code), emit (EvGet url) st))
  /\ (forall code body line lineNum retryQueue st0,
         st = log InfoLevel (MsgProcessing order) st0 ->
         answer = GetResp code body -> non2XX code = true ->
         TrimSpace_is_empty line = false ->
         json_Unmarshal W line = inl order -> matches p order = true ->
         lineStep p W line lineNum retryQueue st0
         = (retryQueue ++ [order],
            log WarnLevel (MsgAddToQueue (OrderID order) (ErrNon2XX code))
              (emit (EvGet url) st)))
  /\ (forall err,
         answer = GetErr err -> retryCount < Retries p ->
         processOrder p W order retryCount st
         = processOrder p W order (retryCount + 1)
             (emit (backoffSleep retryCount)
                (log WarnLevel
                   (MsgRequestFailed (OrderID order) (retryCount + 1) (Retries p) err)
                   (log DebugLevel (MsgRetryCount retryCount (Retries p))
                      (emit (EvGet url) st)))))
  /\ (forall err,
         answer = GetErr err -> Retries p <= retryCount ->
         processOrder p W order retryCount st
         = (Some (ErrRequest err), emit (EvGet url) st)).
Proof.
  intros url answer.
  assert (Hstatus : forall code body rc,
             answer = GetResp code body -> non2XX code = true ->
             processOrder p W order rc st
             = (Some (ErrNon2XX code), emit (EvGet url) st)).
  { intros code body rc Ha Hc. rewrite processOrder_unfold.
    fold url. fold answer. rewrite Ha. unfold handleResponse. rewrite Hc.
    reflexivity. }
  split; [intros code body; apply Hstatus|]. split; [|split].
  - intros code body line lineNum q st0 Hst Ha Hc Hblank Hdec Hm.
    unfold lineStep. rewrite Hblank, Hdec, Hm, <- Hst.
    rewrite (Hstatus code body 0 Ha Hc). reflexivity.
  - intros err Ha Hlt. rewrite processOrder_unfold at 1.
    fold url. fold answer. rewrite Ha.
    apply Z.ltb_lt in Hlt. rewrite Hlt. reflexivity.
  - intros err Ha Hge. rewrite processOrder_unfold.
    fold url. fold answer. rewrite Ha.
    apply Z.ltb_ge in Hge. rewrite Hge. reflexivity.
Qed.

Lemma non2XX_fails_without_inline_retry_witness :
  processOrder Sample.config (Sample.world [] Sample.status500) Sample.order1 1 init
  = (Some (ErrNon2XX 500), emit (EvGet Sample.url1) init).
Proof.
  apply (proj1 (non2XX_fails_without_inline_retry
                  Sample.config (Sample.world [] Sample.status500)
                  Sample.order1 1 init) 500 (ReadAllOk "oops"));
    reflexivity.
Defined.

(** C2, as stated, fails: an endpoint that keeps answering 500 keeps
    returning an outcome the specification calls retryable, yet the first
    pass makes one attempt, not [p.Retries + 1 = 3]. *)
Lemma retryable_outcome_attempts_counterexample :
  (forall n, client_Get (Sample.world [] Sample.status500) n Sample.url1
             = GetResp 500 (ReadAllOk "oops"))
  /\ non2XX 500 = true
  /\ fst (processOrder Sample.config (Sample.world [] Sample.status500)
            Sample.order1 0 init) = Some (ErrNon2XX 500)
  /\ gets (trace (snd (processOrder Sample.config (Sample.world [] Sample.status500)
                         Sample.order1 0 init))) = [Sample.url1]
  /\ Z.of_nat (List.length [Sample.url1]) <> Retries Sample.config + 1.
Proof.
  split; [reflexivity|]. split; [reflexivity|]. split; [reflexivity|].
  split; [reflexivity|]. discriminate.
Qed.

(** C2, amended.  For an order whose requests keep failing without a
    response, and a retry budget between 0 and the number of seconds a
    [time.Duration] holds, the call of the first pass makes exactly
    [p.Retries + 1] requests before it returns the last error: the first
    request, then for [k = 1 .. p.Retries] a sleep of [k] seconds followed by
    the [k]-th retry.  The sleeps increase strictly. *)
Theorem transport_failures_exhaust_inline_budget
        (p : Processor) (W : World) (order : Order) (st : State)
        (errs : nat -> string) :
  0 <= Retries p <= max_seconds ->
  (forall n, (List.length (gets (trace st)) <= n)%nat ->
             client_Get W n (requestURL p order) = GetErr (errs n)) ->
  let budget := Z.to_nat (Retries p) in
  let sent := List.length (gets (trace st)) in
  let evs := EvGet (requestURL p order) :: retryRounds p order errs 0 sent budget in
  processOrder p W order 0 st
  = (Some (ErrRequest (errs (sent + budget)%nat)), mkState (trace st ++ evs) (output st))
  /\ Z.of_nat (List.length (gets evs)) = Retries p + 1
  /\ sleeps evs = map (fun k => Second * k) (countFrom 1 budget)
  /\ StronglySorted Z.lt (sleeps evs).
Proof.
  intros Hr Hget budget sent evs.
  assert (Hs : sleeps evs = map (fun k => Second * k) (countFrom 1 budget)).
  { unfold evs. change (sleeps (?e :: ?t)) with (sleeps t).
    rewrite sleeps_retryRounds. apply seconds_countFrom; unfold budget; lia. }
  split; [|split; [|split]].
  - apply processOrder_unreachable; [|exact Hget].
    unfold budget. f_equal. lia.
  - unfold evs. change (gets (?e :: ?t)) with (requestURL p order :: gets t).
    rewrite gets_retryRounds. simpl. rewrite repeat_length. unfold budget. lia.
  - exact Hs.
  - rewrite Hs. apply seconds_increasing.
Qed.

Lemma transport_failures_exhaust_inline_budget_witness :
  processOrder Sample.config (Sample.world [] Sample.refused) Sample.order1 0 init
  = (Some (ErrRequest "connection refused"),
     mkState
       ([] ++ EvGet Sample.url1
           :: retryRounds Sample.config Sample.order1
                (fun _ => "connection refused"%string) 0 0 2)
       EmptyString).
Proof.
  apply (transport_failures_exhaust_inline_budget
           Sample.config (Sample.world [] Sample.refused) Sample.order1 init
           (fun _ => "connection refused"%string)).
  - unfold max_seconds. simpl. lia.
  - intros n _. reflexivity.
Defined.

(** ** The retry queue and its replay *)

(** The inner loop of the replay, entered with the counter at
    [retryAttempts], invokes [processOrder] at the attempt indices
    [retryAttempts], [retryAttempts + 1], ... below [p.Retries]. *)
Lemma retryLoop_replayAt (p : Processor) (W : World) (order : Order) (m : nat) :
  forall retryAttempts st,
    Z.to_nat (Retries p - retryAttempts) = m ->
    snd (retryLoop p W order retryAttempts st)
    = snd (replayAt p W order (countFrom retryAttempts m) retryAttempts st)
    /\ (fst (retryLoop p W order retryAttempts st) >=? Retries p)
       = fst (replayAt p W order (countFrom retryAttempts m) retryAttempts st).
Proof.
  induction m as [|m IH]; intros ra st Hm; rewrite retryLoop_unfold.
  - destruct (Z.ltb_spec ra (Retries p)) as [H|H]; [lia|]. simpl.
    split; [reflexivity|]. apply Z.geb_le. exact H.
  - destruct (Z.ltb_spec ra (Retries p)) as [H|H]; [|lia].
    cbn [countFrom replayAt].
    destruct (processOrder p W order ra _) as [[err|] st1].
    + apply IH. lia.
    + simpl. split; [reflexivity|].
      destruct (Z.geb_spec ra (Retries p)); [lia|reflexivity].
Qed.

Lemma retryOrder_counts_up (p : Processor) (W : World) (order : Order) (st : State) :
  retryOrder p W order st
  = retryOrder_at p W (countFrom 0 (Z.to_nat (Retries p))) order st.
Proof.
  unfold retryOrder, retryOrder_at.
  destruct (retryLoop_replayAt p W order (Z.to_nat (Retries p)) 0 st) as [Hs Hf];
    [f_equal; lia|].
  destruct (retryLoop p W order 0 st) as [ra st1].
  destruct (replayAt p W order _ 0 st) as [exhausted st2].
  simpl in Hs, Hf. subst. reflexivity.
Qed.

(** What one line adds to the retry queue. *)
Lemma lineStep_queue (p : Processor) (W : World) (line : string) (lineNum : Z)
      (retryQueue : list Order) (st : State) :
  fst (lineStep p W line lineNum retryQueue st) = retryQueue
  \/ exists order,
      keptOrders p W [line] = [order]
      /\ fst (lineStep p W line lineNum retryQueue st) = retryQueue ++ [order].
Proof.
  unfold lineStep, keptOrders. simpl.
  destruct (TrimSpace_is_empty line); [left; reflexivity|].
  destruct (json_Unmarshal W line) as [order|err]; [|left; reflexivity].
  destruct (matches p order); [|left; reflexivity].
  destruct (processOrder p W order 0 _) as [[err|] st1]; [|left; reflexivity].
  right. exists order. split; reflexivity.
Qed.

Lemma keptOrders_cons (p : Processor) (W : World) (line : string) (rest : list string) :
  keptOrders p W (line :: rest) = keptOrders p W [line] ++ keptOrders p W rest.
Proof. unfold keptOrders. simpl. rewrite app_nil_r. reflexivity. Qed.

(** The queue the first pass builds only grows, by orders the loop kept. *)
Lemma scanLoop_queue (p : Processor) (W : World) (lines : list string) :
  forall lineNum retryQueue st,
  exists added,
    fst (scanLoop p W lines lineNum retryQueue st) = retryQueue ++ added
    /\ incl added (keptOrders p W lines)
    /\ (NoDup (keptOrders p W lines) -> NoDup added).
Proof.
  induction lines as [|line rest IH]; intros n q st.
  - exists []. simpl. rewrite app_nil_r.
    split; [reflexivity|]. split; [apply incl_refl|intros _; constructor].
  - cbn [scanLoop]. rewrite keptOrders_cons.
    destruct (lineStep_queue p W line (add n 1) q st) as [Hq|[order [Hk Hq]]];
      destruct (lineStep p W line (add n 1) q st) as [q1 st1]; simpl in Hq; subst q1;
      match goal with
      | |- context [scanLoop p W rest ?n1 ?q1 st1] =>
          destruct (IH n1 q1 st1) as [added [Ha [Hi Hn]]]
      end.
    + exists added. split; [exact Ha|]. split.
      * apply incl_appr. exact Hi.
      * intros Hnd. apply Hn. apply NoDup_app_remove_l in Hnd. exact Hnd.
    + exists (order :: added). rewrite Ha, <- app_assoc. split; [reflexivity|].
      rewrite Hk. split.
      * intros o [<-|Ho]; [left; reflexivity|right; apply Hi; exact Ho].
      * intros Hnd. simpl in Hnd. inversion Hnd as [|x l Hnotin Hnd']; subst.
        constructor; [|apply Hn; exact Hnd'].
        intros Hin. apply Hnotin. apply Hi. exact Hin.
Qed.

(** While the endpoint cannot be reached, every invocation of a replay
    fails, and an invocation at attempt index [i] sends one request plus one
    per index from [i] up to [p.Retries]. *)
Lemma replayAt_unreachable (p : Processor) (W : World) (order : Order)
      (errs : nat -> string) :
  (forall n, client_Get W n (requestURL p order) = GetErr (errs n)) ->
  forall idxs announced st,
    fst (replayAt p W order idxs announced st) = true
    /\ List.length (gets (trace (snd (replayAt p W order idxs announced st))))
       = (List.length (gets (trace st))
          + list_sum (map (fun i => S (Z.to_nat (Retries p - i))) idxs))%nat.
Proof.
  intros Hget. induction idxs as [|i rest IH]; intros a st.
  - simpl. split; [reflexivity|lia].
  - cbn [replayAt map list_sum].
    rewrite (processOrder_unreachable p W order errs (Z.to_nat (Retries p - i)) i _ eq_refl)
      by (intros n _; apply Hget).
    match goal with
    | |- context [replayAt p W order rest ?a1 ?s1] =>
        destruct (IH a1 s1) as [Hf Hl]
    end.
    split; [exact Hf|]. rewrite Hl. unfold log, emit. cbn [trace].
    rewrite !gets_app, !length_app.
    change (gets (EvGet (requestURL p order) :: ?t)) with (requestURL p order :: gets t).
    rewrite gets_retryRounds. cbn [List.length]. rewrite repeat_length. simpl. lia.
Qed.

(** C3, as stated, fails: against an unreachable endpoint with two retries
    configured, the replay of a queued order is not a series of invocations
    at one fixed attempt index, whatever that index.  (The source sends five
    requests, three for the invocation at index 0 and two for the one at
    index 1; invocations at one index send an even number.) *)
Lemma replay_at_fixed_index_counterexample :
  ~ exists fixedIndex,
      retryOrder Sample.config (Sample.world [] Sample.refused) Sample.order1 init
      = retryOrder_fixed_index Sample.config (Sample.world [] Sample.refused)
          fixedIndex Sample.order1 init.
Proof.
  intros [i H].
  apply (f_equal (fun st => List.length (gets (trace st)))) in H.
  unfold retryOrder_fixed_index, retryOrder_at in H.
  destruct (replayAt_unreachable Sample.config (Sample.world [] Sample.refused)
              Sample.order1 (fun _ => "connection refused"%string)
              (fun _ => eq_refl)
              (repeat i (Z.to_nat (Retries Sample.config))) 0 init) as [Hf Hl].
  destruct (replayAt Sample.config (Sample.world [] Sample.refused) Sample.order1
              (repeat i (Z.to_nat (Retries Sample.config))) 0 init)
    as [exhausted st1].
  cbn [fst snd] in Hf, Hl. subst exhausted.
  assert (E : List.length
                (gets (trace (retryOrder Sample.config
                                (Sample.world [] Sample.refused) Sample.order1 init)))
              = 5%nat) by (vm_compute; reflexivity).
  rewrite E in H. unfold log, emit in H. cbn [trace] in H.
  rewrite gets_app, length_app, Hl in H.
  change (Z.to_nat (Retries Sample.config)) with 2%nat in H.
  cbn [repeat map list_sum init trace gets flat_map List.length app] in H.
  unfold list_sum in H. cbn [fold_right] in H. lia.
Qed.

(** C3, amended.  A kept order enters the retry queue once, at the end,
    when its call of the first pass fails, and not otherwise; the queue of
    the first pass holds kept orders only, each at most once when the kept
    orders of the input are distinct.  The replay gives every queued order up
    to [p.Retries] further invocations of [processOrder]: the invocation
    number [k] (from 0) is made at attempt index [k], the value of the loop
    counter, which starts at 0 whatever happened in the first pass; the
    replay stops at the first success and reports the order when every
    invocation failed. *)
Theorem replay_counts_attempt_index_up (p : Processor) (W : World) :
  (forall line lineNum retryQueue st order,
      TrimSpace_is_empty line = false ->
      json_Unmarshal W line = inl order ->
      matches p order = true ->
      fst (lineStep p W line lineNum retryQueue st)
      = match fst (processOrder p W order 0 (log InfoLevel (MsgProcessing order) st)) with
        | Some _ => retryQueue ++ [order]
        | None => retryQueue
        end)
  /\ (forall lines,
         incl (fst (scanLoop p W lines 0 [] init)) (keptOrders p W lines)
         /\ (NoDup (keptOrders p W lines) ->
             NoDup (fst (scanLoop p W lines 0 [] init))))
  /\ (forall order st,
         retryOrder p W order st
         = retryOrder_at p W (countFrom 0 (Z.to_nat (Retries p))) order st)
  /\ (forall order queue st,
         processRetryQueue p W (order :: queue) st
         = fold_left
             (fun s o => retryOrder_at p W (countFrom 0 (Z.to_nat (Retries p))) o s)
             (order :: queue)
             (log InfoLevel (MsgQueue (Z.of_nat (List.length (order :: queue)))) st))
  /\ List.length (countFrom 0 (Z.to_nat (Retries p))) = Z.to_nat (Retries p).
Proof.
  split; [|split; [|split; [|split]]].
  - intros line n q st order Hblank Hdec Hm.
    unfold lineStep. rewrite Hblank, Hdec, Hm.
    destruct (processOrder p W order 0 _) as [[err|] st1]; reflexivity.
  - intros lines.
    destruct (scanLoop_queue p W lines 0 [] init) as [added [Ha [Hi Hn]]].
    rewrite Ha. simpl. split; assumption.
  - apply retryOrder_counts_up.
  - intros order queue st. unfold processRetryQueue.
    generalize (log InfoLevel (MsgQueue (Z.of_nat (List.length (order :: queue)))) st).
    generalize (order :: queue) as l.
    induction l as [|o l IH]; intros s; simpl; [reflexivity|].
    rewrite retryOrder_counts_up. apply IH.
  - apply countFrom_length.
Qed.

Lemma replay_counts_attempt_index_up_witness :
  fst (lineStep Sample.config (Sample.world [] Sample.refused)
         (Sample.jsonLine "1" "TSLA" "sell") 1 [] init)
  = [Sample.order1].
Proof.
  apply (proj1 (replay_counts_attempt_index_up
                  Sample.config (Sample.world [] Sample.refused))
               (Sample.jsonLine "1" "TSLA" "sell") 1 [] init Sample.order1);
    reflexivity.
Defined.

(** ** Responses *)

Lemma non2XX_range (code : Z) : non2XX code = false <-> 200 <= code <= 299.
Proof.
  unfold non2XX. rewrite orb_false_iff, Z.ltb_ge.
  destruct (Z.geb_spec code 300) as [Hge|Hlt]; split; intros G;
    try lia; try (split; [lia|reflexivity]).
Qed.

(** A response outside 200-299 ends the call at once, at any attempt index. *)
Lemma processOrder_non2XX (p : Processor) (W : World) (order : Order)
      (retryCount : Z) (st : State) (code : Z) (body : ReadAllResult) :
  client_Get W (List.length (gets (trace st))) (requestURL p order) = GetResp code body ->
  non2XX code = true ->
  processOrder p W order retryCount st
  = (Some (ErrNon2XX code), emit (EvGet (requestURL p order)) st).
Proof.
  intros Ha Hc. rewrite processOrder_unfold, Ha. unfold handleResponse.
  rewrite Hc. reflexivity.
Qed.

(** C4, as stated, fails: with one matching order, an endpoint that always
    answers 500 and two retries, the first pass sends one request, not
    three. *)
Lemma always_500_first_pass_counterexample :
  Retries Sample.config = 2
  /\ gets (trace (snd (scanLoop Sample.config
                         (Sample.world [Sample.jsonLine "1" "TSLA" "sell"] Sample.status500)
                         [Sample.jsonLine "1" "TSLA" "sell"] 0 [] init)))
     = [Sample.url1]
  /\ List.length [Sample.url1] <> 3%nat.
Proof.
  split; [reflexivity|]. split; [vm_compute; reflexivity|discriminate].
Qed.

(** C4, amended.  For an input of one matching order, an endpoint that
    always answers 500 and [p.Retries = 2], the first pass sends exactly one
    request and queues the order; the replay sends exactly two more, one per
    invocation; the order is reported as exhausted, nothing is written, and
    [Process] returns [nil]. *)
Theorem always_500_run (p : Processor) (W : World) (line : string) (order : Order)
        (bodies : nat -> ReadAllResult) :
  Retries p = 2 ->
  os_Open W (InputFile p) = OpenOk [line] None ->
  os_Create W (OutputFile p) = None ->
  TrimSpace_is_empty line = false ->
  json_Unmarshal W line = inl order ->
  matches p order = true ->
  (forall n, client_Get W n (requestURL p order) = GetResp 500 (bodies n)) ->
  let id := OrderID order in
  let url := requestURL p order in
  let firstPass :=
    [EvLog InfoLevel (MsgProcessing order);
     EvGet url;
     EvLog WarnLevel (MsgAddToQueue id (ErrNon2XX 500))] in
  let replay :=
    [EvLog InfoLevel (MsgQueue 1);
     EvLog InfoLevel (MsgRetryAttempt 1 2 id);
     EvGet url;
     EvLog WarnLevel (MsgRetryFailed id (ErrNon2XX 500));
     EvLog InfoLevel (MsgRetryAttempt 2 2 id);
     EvGet url;
     EvLog WarnLevel (MsgRetryFailed id (ErrNon2XX 500));
     EvLog ErrorLevel (MsgExceeded id)] in
  scanLoop p W [line] 0 [] init = ([order], mkState firstPass EmptyString)
  /\ Process p W = (None, mkState (firstPass ++ replay) EmptyString)
  /\ gets firstPass = [url]
  /\ gets replay = [url; url].
Proof.
  intros HR Hopen Hcreate Hblank Hdec Hm Hget id url firstPass replay.
  assert (Hfirst : scanLoop p W [line] 0 [] init = ([order], mkState firstPass EmptyString)).
  { cbn [scanLoop]. unfold lineStep. rewrite Hblank, Hdec, Hm.
    rewrite (processOrder_non2XX p W order 0 _ 500 (bodies _) (Hget _) eq_refl).
    reflexivity. }
  split; [exact Hfirst|]. split; [|split; reflexivity].
  unfold Process. rewrite Hopen, Hcreate, Hfirst.
  unfold processRetryQueue. cbn [fold_left]. unfold retryOrder.
  rewrite retryLoop_unfold, HR. cbn [Z.ltb Z.compare].
  rewrite (processOrder_non2XX p W order 0 _ 500 (bodies _) (Hget _) eq_refl).
  rewrite retryLoop_unfold, HR. cbn [Z.ltb Z.compare Z.add Pos.add Pos.compare Pos.compare_cont].
  rewrite (processOrder_non2XX p W order _ _ 500 (bodies _) (Hget _) eq_refl).
  rewrite retryLoop_unfold, HR. cbn [Z.ltb Z.compare Z.add Pos.add Pos.succ Pos.compare Pos.compare_cont].
  cbn [Z.geb Z.compare Pos.compare Pos.compare_cont].
  reflexivity.
Qed.

Lemma always_500_run_witness :
  Process Sample.config
    (Sample.world [Sample.jsonLine "1" "TSLA" "sell"] Sample.status500)
  = (None,
     mkState
       ([EvLog InfoLevel (MsgProcessing Sample.order1);
         EvGet Sample.url1;
         EvLog WarnLevel (MsgAddToQueue "1" (ErrNon2XX 500))]
        ++ [EvLog InfoLevel (MsgQueue 1);
            EvLog InfoLevel (MsgRetryAttempt 1 2 "1");
            EvGet Sample.url1;
            EvLog WarnLevel (MsgRetryFailed "1" (ErrNon2XX 500));
            EvLog InfoLevel (MsgRetryAttempt 2 2 "1");
            EvGet Sample.url1;
            EvLog WarnLevel (MsgRetryFailed "1" (ErrNon2XX 500));
            EvLog ErrorLevel (MsgExceeded "1")])
       EmptyString).
Proof.
  apply (always_500_run Sample.config
           (Sample.world [Sample.jsonLine "1" "TSLA" "sell"] Sample.status500)
           (Sample.jsonLine "1" "TSLA" "sell") Sample.order1
           (fun _ => ReadAllOk "oops"));
    reflexivity.
Defined.

(** ** The filter and the reader *)

Lemma matches_iff (p : Processor) (order : Order) :
  matches p order = true
  <-> Models.Symbol order = Symbol p /\ Models.Side order = Side p.
Proof.
  unfold matches. rewrite andb_true_iff, !String.eqb_eq. reflexivity.
Qed.

(** Every call to [processOrder] begins with a request for the order's URL. *)
Lemma processOrder_requests_first (p : Processor) (W : World) (order : Order)
      (retryCount : Z) (st : State) :
  exists evs,
    trace (snd (processOrder p W order retryCount st))
    = trace st ++ EvGet (requestURL p order) :: evs.
Proof.
  assert (H : extends (emit (EvGet (requestURL p order)) st)
                      (snd (processOrder p W order retryCount st))).
  { rewrite processOrder_unfold.
    destruct (client_Get W _ _) as [err|code body].
    - destruct (retryCount <? Retries p); [|apply extends_refl].
      eapply extends_trans; [apply extends_backoff|apply extends_processOrder].
    - apply extends_handleResponse. }
  destruct H as [[evs H] _]. exists evs. rewrite H. simpl.
  rewrite <- app_assoc. reflexivity.
Qed.

Lemma requestedSince_extends (st1 st2 st3 : State) (url : string) :
  requestedSince st1 url st2 -> extends st2 st3 -> requestedSince st1 url st3.
Proof.
  intros [b [a H]] [[evs He] _]. exists b, (a ++ evs).
  rewrite He, H, <- !app_assoc. reflexivity.
Qed.

Lemma extends_requestedSince (st1 st2 st3 : State) (url : string) :
  extends st1 st2 -> requestedSince st2 url st3 -> requestedSince st1 url st3.
Proof.
  intros [[evs He] _] [b [a H]]. exists (evs ++ b), a.
  rewrite H, He, <- !app_assoc. reflexivity.
Qed.

Lemma requestedSince_gets (st1 st2 : State) (url : string) :
  requestedSince st1 url st2 -> In url (gets (trace st2)).
Proof.
  intros [b [a H]]. rewrite H, !gets_app. apply in_or_app. right.
  apply in_or_app. right. left. reflexivity.
Qed.

Lemma processOrder_requestedSince (p : Processor) (W : World) (order : Order)
      (retryCount : Z) (st : State) :
  requestedSince st (requestURL p order) (snd (processOrder p W order retryCount st)).
Proof.
  destruct (processOrder_requests_first p W order retryCount st) as [evs H].
  exists [], evs. exact H.
Qed.

(** A kept line has its order requested before the loop goes on. *)
Lemma lineStep_requests_kept (p : Processor) (W : World) (line : string)
      (lineNum : Z) (retryQueue : list Order) (st : State) (order : Order) :
  In order (keptOrders p W [line]) ->
  requestedSince st (requestURL p order) (snd (lineStep p W line lineNum retryQueue st)).
Proof.
  unfold keptOrders, lineStep. simpl.
  destruct (TrimSpace_is_empty line); [intros []|].
  destruct (json_Unmarshal W line) as [o|err]; [|intros []].
  destruct (matches p o); [|intros []].
  rewrite app_nil_r. intros [->|[]].
  pose proof (processOrder_requestedSince p W order 0
                (log InfoLevel (MsgProcessing order) st)) as H.
  apply (extends_requestedSince st _ _ _ (extends_log _ _ st)) in H.
  destruct (processOrder p W order 0 _) as [[err|] st1]; simpl in *; [|exact H].
  eapply requestedSince_extends; [exact H|apply extends_log].
Qed.

Lemma scanLoop_requests_kept (p : Processor) (W : World) (lines : list string)
      (order : Order) :
  In order (keptOrders p W lines) ->
  forall lineNum retryQueue st,
    requestedSince st (requestURL p order)
      (snd (scanLoop p W lines lineNum retryQueue st)).
Proof.
  induction lines as [|line rest IH]; [intros []|].
  rewrite keptOrders_cons. intros Hin n q st. cbn [scanLoop].
  apply in_app_or in Hin. destruct Hin as [Hin|Hin].
  - pose proof (lineStep_requests_kept p W line (add n 1) q st order Hin) as H.
    destruct (lineStep p W line (add n 1) q st) as [q1 st1]. simpl in H.
    eapply requestedSince_extends; [exact H|apply extends_scanLoop].
  - pose proof (extends_lineStep p W line (add n 1) q st) as H.
    destruct (lineStep p W line (add n 1) q st) as [q1 st1]. simpl in H.
    eapply extends_requestedSince; [exact H|apply IH; exact Hin].
Qed.

(** ** Requests are made for kept orders only *)

Lemma gets_handleResponse (W : World) (order : Order) (code : Z)
      (body : ReadAllResult) (st : State) :
  gets (trace (snd (handleResponse W order code body st))) = gets (trace st).
Proof.
  unfold handleResponse. destruct (non2XX code); [reflexivity|].
  destruct body as [b|err]; [|reflexivity].
  unfold Fprintf. destruct (file_Write W _ _) as [|n err]; simpl;
    rewrite !gets_app; simpl; rewrite ?app_nil_r; reflexivity.
Qed.

Lemma processOrder_requests_only (p : Processor) (W : World) (order : Order)
      (retryCount : Z) (st : State) (u : string) :
  In u (gets (trace (snd (processOrder p W order retryCount st)))) ->
  In u (gets (trace st)) \/ u = requestURL p order.
Proof.
  apply (processOrder_elim p W
           (fun order _ st r =>
              In u (gets (trace (snd r))) ->
              In u (gets (trace st)) \/ u = requestURL p order)).
  - intros o rc s code body _. rewrite gets_handleResponse. simpl.
    rewrite gets_app. intros H. apply in_app_or in H.
    destruct H as [H|[H|[]]]; [left; exact H|right; symmetry; exact H].
  - intros o rc l s err IH _ _ H. apply IH in H. destruct H as [H|H]; [|right; exact H].
    simpl in H. rewrite !gets_app in H. simpl in H. rewrite !app_nil_r in H.
    apply in_app_or in H. destruct H as [H|[H|[]]]; [left; exact H|right; symmetry; exact H].
  - intros o rc n s err _ _. simpl. rewrite gets_app. intros H. apply in_app_or in H.
    destruct H as [H|[H|[]]]; [left; exact H|right; symmetry; exact H].
Qed.

Lemma retryLoop_requests_only (p : Processor) (W : World) (order : Order)
      (retryAttempts : Z) (st : State) (u : string) :
  In u (gets (trace (snd (retryLoop p W order retryAttempts st)))) ->
  In u (gets (trace st)) \/ u = requestURL p order.
Proof.
  apply (retryLoop_elim p W
           (fun order _ st r =>
              In u (gets (trace (snd r))) ->
              In u (gets (trace st)) \/ u = requestURL p order)).
  - intros o ra n s _ H. left. exact H.
  - intros o ra l s err st1 IH Hcall _ H. apply IH in H.
    destruct H as [H|H]; [|right; exact H].
    simpl in H. rewrite gets_app in H. simpl in H. rewrite app_nil_r in H.
    change st1 with (snd (Some err, st1)) in H. rewrite <- Hcall in H.
    apply processOrder_requests_only in H. destruct H as [H|H]; [|right; exact H].
    simpl in H. rewrite gets_app in H. simpl in H. rewrite app_nil_r in H.
    left. exact H.
  - intros o ra l s st1 Hcall _ H.
    change st1 with (snd (@None error, st1)) in H. rewrite <- Hcall in H.
    apply processOrder_requests_only in H. destruct H as [H|H]; [|right; exact H].
    simpl in H. rewrite gets_app in H. simpl in H. rewrite app_nil_r in H.
    left. exact H.
Qed.

Lemma retryOrder_requests_only (p : Processor) (W : World) (order : Order)
      (st : State) (u : string) :
  In u (gets (trace (retryOrder p W order st))) ->
  In u (gets (trace st)) \/ u = requestURL p order.
Proof.
  unfold retryOrder. pose proof (retryLoop_requests_only p W order 0 st u) as H.
  destruct (retryLoop p W order 0 st) as [ra st1]. simpl in H.
  destruct (ra >=? Retries p); [|exact H].
  simpl. rewrite gets_app. simpl. rewrite app_nil_r. exact H.
Qed.

Lemma processRetryQueue_requests_only (p : Processor) (W : World)
      (queue : list Order) (st : State) (u : string) :
  In u (gets (trace (processRetryQueue p W queue st))) ->
  In u (gets (trace st)) \/ exists order, In order queue /\ u = requestURL p order.
Proof.
  unfold processRetryQueue. destruct queue as [|o q]; [left; assumption|].
  assert (G : forall l s,
             In u (gets (trace (fold_left (fun s o => retryOrder p W o s) l s))) ->
             In u (gets (trace s)) \/ exists order, In order l /\ u = requestURL p order).
  { induction l as [|x l IH]; intros s H; simpl in H; [left; exact H|].
    apply IH in H. destruct H as [H|[order [Hin Hu]]].
    - apply retryOrder_requests_only in H. destruct H as [H|H]; [left; exact H|].
      right. exists x. split; [left; reflexivity|exact H].
    - right. exists order. split; [right; exact Hin|exact Hu]. }
  intros H. apply G in H. destruct H as [H|H]; [|right; exact H].
  simpl in H. rewrite gets_app in H. simpl in H. rewrite app_nil_r in H.
  left. exact H.
Qed.

Lemma lineStep_requests_only (p : Processor) (W : World) (line : string)
      (lineNum : Z) (retryQueue : list Order) (st : State) (u : string) :
  In u (gets (trace (snd (lineStep p W line lineNum retryQueue st)))) ->
  In u (gets (trace st))
  \/ exists order, In order (keptOrders p W [line]) /\ u = requestURL p order.
Proof.
  unfold lineStep, keptOrders. simpl.
  destruct (TrimSpace_is_empty line); [left; assumption|].
  destruct (json_Unmarshal W line) as [order|err].
  - destruct (matches p order); [|left; assumption].
    pose proof (processOrder_requests_only p W order 0
                  (log InfoLevel (MsgProcessing order) st) u) as G.
    simpl in G. rewrite gets_app in G. simpl in G. rewrite app_nil_r in G.
    intros H.
    assert (H' : In u (gets (trace (snd (processOrder p W order 0
                          (log InfoLevel (MsgProcessing order) st)))))).
    { destruct (processOrder p W order 0 _) as [[err|] st1]; simpl in H |- *;
        [|exact H].
      rewrite gets_app in H. simpl in H. rewrite app_nil_r in H. exact H. }
    apply G in H'. destruct H' as [H'|H']; [left; exact H'|].
    right. exists order. split; [left; reflexivity|exact H'].
  - simpl. rewrite gets_app. simpl. rewrite app_nil_r. left. assumption.
Qed.

Lemma scanLoop_requests_only (p : Processor) (W : World) (lines : list string)
      (u : string) :
  forall lineNum retryQueue st,
    In u (gets (trace (snd (scanLoop p W lines lineNum retryQueue st)))) ->
    In u (gets (trace st))
    \/ exists order, In order (keptOrders p W lines) /\ u = requestURL p order.
Proof.
  induction lines as [|line rest IH]; intros n q st H; [left; exact H|].
  cbn [scanLoop] in H. rewrite keptOrders_cons.
  pose proof (lineStep_requests_only p W line (add n 1) q st u) as G.
  destruct (lineStep p W line (add n 1) q st) as [q1 st1]. simpl in G.
  apply IH in H. destruct H as [H|[order [Hin Hu]]].
  - apply G in H. destruct H as [H|[order [Hin Hu]]]; [left; exact H|].
    right. exists order. split; [apply in_or_app; left; exact Hin|exact Hu].
  - right. exists order. split; [apply in_or_app; right; exact Hin|exact Hu].
Qed.

Lemma keptOrders_match (p : Processor) (W : World) (lines : list string) (order : Order) :
  In order (keptOrders p W lines) ->
  exists line,
    In line lines /\ json_Unmarshal W line = inl order
    /\ Models.Symbol order = Symbol p /\ Models.Side order = Side p.
Proof.
  unfold keptOrders. rewrite in_flat_map. intros [line [Hl Hin]].
  exists line. split; [exact Hl|].
  destruct (TrimSpace_is_empty line); [destruct Hin|].
  destruct (json_Unmarshal W line) as [o|err]; [|destruct Hin].
  destruct (matches p o) eqn:Hm; [|destruct Hin].
  destruct Hin as [->|[]]. split; [reflexivity|]. apply matches_iff. exact Hm.
Qed.

(** Whatever [Process] requests, in the first pass or in the replay, is the
    URL of an order that a line of the input decodes to and that passes the
    filter. *)
Lemma Process_requests_only_kept (p : Processor) (W : World) (u : string) :
  In u (gets (trace (snd (Process p W)))) ->
  exists lines scanErr line order,
    os_Open W (InputFile p) = OpenOk lines scanErr
    /\ In line lines /\ json_Unmarshal W line = inl order
    /\ Models.Symbol order = Symbol p /\ Models.Side order = Side p
    /\ u = requestURL p order.
Proof.
  unfold Process. destruct (os_Open W (InputFile p)) as [err|lines scanErr] eqn:Ho;
    [intros []|].
  destruct (os_Create W (OutputFile p)) as [err|]; [intros []|].
  pose proof (scanLoop_requests_only p W lines u 0 [] init) as G.
  destruct (scanLoop_queue p W lines 0 [] init) as [added [Ha [Hi _]]].
  destruct (scanLoop p W lines 0 [] init) as [q st]. simpl in G, Ha. subst q.
  intros H.
  assert (K : exists order, In order (keptOrders p W lines) /\ u = requestURL p order).
  { destruct scanErr as [err|]; simpl in H.
    - apply G in H. destruct H as [[]|H]. exact H.
    - apply processRetryQueue_requests_only in H.
      destruct H as [H|[order [Hin Hu]]].
      + apply G in H. destruct H as [[]|H]. exact H.
      + exists order. split; [apply Hi; exact Hin|exact Hu]. }
  destruct K as [order [Hin Hu]].
  destruct (keptOrders_match p W lines order Hin) as [line [Hl [Hd [Hs Hsd]]]].
  exists lines, scanErr, line, order. repeat split; assumption.
Qed.

(** C5. For a line that decodes to an order, the loop of [Process] requests
    the order's URL exactly when the order's symbol and side both equal the
    configured ones; when either differs the line leaves the trace, the
    output file and the retry queue as they were: no request, no write, no
    enqueue.  Over a whole run, first pass and replay, every request is for
    an order of the input whose symbol and side equal the configured ones. *)
Theorem delivery_iff_filter_matches (p : Processor) (W : World) :
  (forall line lineNum retryQueue st order,
      TrimSpace_is_empty line = false ->
      json_Unmarshal W line = inl order ->
      (requestedSince st (requestURL p order)
         (snd (lineStep p W line lineNum retryQueue st))
       <-> Models.Symbol order = Symbol p /\ Models.Side order = Side p)
      /\ (Models.Symbol order <> Symbol p \/ Models.Side order <> Side p ->
          lineStep p W line lineNum retryQueue st = (retryQueue, st)))
  /\ (forall url,
         In url (gets (trace (snd (Process p W)))) ->
         exists lines scanErr line order,
           os_Open W (InputFile p) = OpenOk lines scanErr
           /\ In line lines /\ json_Unmarshal W line = inl order
           /\ Models.Symbol order = Symbol p /\ Models.Side order = Side p
           /\ url = requestURL p order).
Proof.
  split; [|apply Process_requests_only_kept].
  intros line lineNum retryQueue st order Hblank Hdec.
  assert (Hno : matches p order = false ->
                lineStep p W line lineNum retryQueue st = (retryQueue, st)).
  { intros Hm. unfold lineStep. rewrite Hblank, Hdec, Hm. reflexivity. }
  split.
  - rewrite <- matches_iff. split.
    + intros [before [after Ht]].
      destruct (matches p order) eqn:Hm; [reflexivity|].
      rewrite (Hno eq_refl) in Ht. simpl in Ht.
      rewrite <- (app_nil_r (trace st)) in Ht at 1.
      apply app_inv_head in Ht. destruct before; discriminate Ht.
    + intros Hm. apply lineStep_requests_kept.
      unfold keptOrders. simpl. rewrite Hblank, Hdec, Hm. left. reflexivity.
  - intros Hne. apply Hno.
    destruct (matches p order) eqn:Hm; [|reflexivity].
    apply matches_iff in Hm. destruct Hm as [Hs Hd]. destruct Hne; contradiction.
Qed.

Lemma delivery_iff_filter_matches_witness :
  lineStep Sample.config (Sample.world [] Sample.status200)
    (Sample.jsonLine "2" "AAPL" "sell") 1 [] init
  = ([], init).
Proof.
  apply (proj2 (proj1 (delivery_iff_filter_matches
                         Sample.config (Sample.world [] Sample.status200))
                      (Sample.jsonLine "2" "AAPL" "sell") 1 [] init Sample.order2
                      eq_refl eq_refl)).
  left. discriminate.
Defined.

(** A line made of ASCII white space only is blank. *)
Lemma ascii_space_is_blank (s : string) :
  Forall (fun a => isSpace1 a = true) (list_ascii_of_string s) ->
  TrimSpace_is_empty s = true.
Proof.
  induction s as [|a s IH]; simpl; intros H; [reflexivity|].
  inversion H as [|x l Ha Hs]; subst. rewrite Ha. apply IH. exact Hs.
Qed.

(** C6. A blank line (white space only) is skipped without any effect, and
    a line that does not decode is skipped with one warning that names the
    line number; neither yields an order (nothing is requested, written or
    queued) and in both cases the loop goes on with the next line. *)
Theorem bad_lines_are_skipped
        (p : Processor) (W : World) (line : string) (rest : list string)
        (lineNum : Z) (retryQueue : list Order) (st : State) :
  (TrimSpace_is_empty line = true ->
   lineStep p W line (add lineNum 1) retryQueue st = (retryQueue, st)
   /\ scanLoop p W (line :: rest) lineNum retryQueue st
      = scanLoop p W rest (add lineNum 1) retryQueue st)
  /\ (forall err,
         TrimSpace_is_empty line = false ->
         json_Unmarshal W line = inr err ->
         lineStep p W line (add lineNum 1) retryQueue st
         = (retryQueue, log WarnLevel (MsgNotJSON (add lineNum 1) err) st)
         /\ scanLoop p W (line :: rest) lineNum retryQueue st
            = scanLoop p W rest (add lineNum 1) retryQueue
                (log WarnLevel (MsgNotJSON (add lineNum 1) err) st))
  /\ (Forall (fun a => isSpace1 a = true) (list_ascii_of_string line) ->
      TrimSpace_is_empty line = true).
Proof.
  split; [|split].
  - intros Hblank.
    assert (H : lineStep p W line (add lineNum 1) retryQueue st = (retryQueue, st)).
    { unfold lineStep. rewrite Hblank. reflexivity. }
    split; [exact H|]. cbn [scanLoop]. rewrite H. reflexivity.
  - intros err Hblank Hdec.
    assert (H : lineStep p W line (add lineNum 1) retryQueue st
                = (retryQueue, log WarnLevel (MsgNotJSON (add lineNum 1) err) st)).
    { unfold lineStep. rewrite Hblank, Hdec. reflexivity. }
    split; [exact H|]. cbn [scanLoop]. rewrite H. reflexivity.
  - apply ascii_space_is_blank.
Qed.

Lemma bad_lines_are_skipped_witness :
  scanLoop Sample.config (Sample.world [] Sample.status200)
    ["junk"%string; Sample.jsonLine "1" "TSLA" "sell"] 0 [] init
  = scanLoop Sample.config (Sample.world [] Sample.status200)
      [Sample.jsonLine "1" "TSLA" "sell"] 1 []
      (log WarnLevel (MsgNotJSON 1 "invalid character") init).
Proof.
  apply (proj1 (proj2 (bad_lines_are_skipped
                         Sample.config (Sample.world [] Sample.status200)
                         "junk"%string [Sample.jsonLine "1" "TSLA" "sell"] 0 [] init))
               "invalid character"%string);
    reflexivity.
Defined.

(** ** Successful deliveries and the output file *)

Lemma string_app_nil_r (s : string) : (s ++ EmptyString)%string = s.
Proof. induction s as [|a s IH]; simpl; congruence. Qed.

Lemma concat_app (l1 l2 : list string) :
  String.concat EmptyString (l1 ++ l2)
  = (String.concat EmptyString l1 ++ String.concat EmptyString l2)%string.
Proof.
  induction l1 as [|a l1 IH]; [reflexivity|].
  destruct l1 as [|b l1].
  - simpl. destruct l2 as [|c l2]; simpl; [symmetry; apply string_app_nil_r|reflexivity].
  - change ((a :: b :: l1) ++ l2) with (a :: (b :: l1) ++ l2).
    change (String.concat EmptyString (a :: (b :: l1) ++ l2))
      with (a ++ EmptyString ++ String.concat EmptyString ((b :: l1) ++ l2))%string.
    rewrite IH. simpl. rewrite string_app_assoc. reflexivity.
Qed.

Lemma outputInOrder_emit (e : Event) (st : State) :
  isWrite e = false -> outputInOrder st -> outputInOrder (emit e st).
Proof.
  unfold outputInOrder. intros He H. simpl. rewrite writes_app, concat_app, <- H.
  destruct e; try discriminate He; simpl; symmetry; apply string_app_nil_r.
Qed.

Section WritesSucceed.

Variable p : Processor.
Variable W : World.
Hypothesis writes_succeed : forall n data, file_Write W n data = WriteOk.

Lemma outputInOrder_handleResponse (order : Order) (code : Z) (body : ReadAllResult)
      (st : State) :
  outputInOrder st -> outputInOrder (snd (handleResponse W order code body st)).
Proof.
  intros H. unfold handleResponse. destruct (non2XX code); [exact H|].
  destruct body as [b|err]; [|exact H].
  unfold Fprintf. rewrite writes_succeed. simpl.
  apply outputInOrder_emit; [reflexivity|].
  unfold outputInOrder in *. simpl. rewrite writes_app, concat_app, <- H.
  simpl. reflexivity.
Qed.

Lemma outputInOrder_processOrder (order : Order) (retryCount : Z) (st : State) :
  outputInOrder st -> outputInOrder (snd (processOrder p W order retryCount st)).
Proof.
  apply (processOrder_elim p W
           (fun _ _ st r => outputInOrder st -> outputInOrder (snd r))).
  - intros o rc s code body _ H.
    apply outputInOrder_handleResponse, outputInOrder_emit; [reflexivity|exact H].
  - intros o rc l s err IH _ _ H. apply IH. unfold backoff, log.
    repeat (apply outputInOrder_emit; [reflexivity|]). exact H.
  - intros o rc n s err _ _ H. apply outputInOrder_emit; [reflexivity|exact H].
Qed.

Lemma outputInOrder_retryLoop (order : Order) (retryAttempts : Z) (st : State) :
  outputInOrder st -> outputInOrder (snd (retryLoop p W order retryAttempts st)).
Proof.
  apply (retryLoop_elim p W
           (fun _ _ st r => outputInOrder st -> outputInOrder (snd r))).
  - intros o ra n s _ H. exact H.
  - intros o ra l s err st1 IH Hcall _ H. apply IH.
    apply outputInOrder_emit; [reflexivity|].
    change st1 with (snd (Some err, st1)). rewrite <- Hcall.
    apply outputInOrder_processOrder, outputInOrder_emit; [reflexivity|exact H].
  - intros o ra l s st1 Hcall _ H.
    change st1 with (snd (@None error, st1)). rewrite <- Hcall.
    apply outputInOrder_processOrder, outputInOrder_emit; [reflexivity|exact H].
Qed.

Lemma outputInOrder_processRetryQueue (queue : list Order) (st : State) :
  outputInOrder st -> outputInOrder (processRetryQueue p W queue st).
Proof.
  unfold processRetryQueue. destruct queue as [|o q]; [trivial|].
  intros H. apply (outputInOrder_emit (EvLog InfoLevel
                     (MsgQueue (Z.of_nat (List.length (o :: q))))) st eq_refl) in H.
  revert H. unfold log. generalize (emit (EvLog InfoLevel
                     (MsgQueue (Z.of_nat (List.length (o :: q))))) st).
  generalize (o :: q) as l. clear o q st.
  induction l as [|o l IH]; intros s H; simpl; [exact H|].
  apply IH. unfold retryOrder.
  pose proof (outputInOrder_retryLoop o 0 s H) as G.
  destruct (retryLoop p W o 0 s) as [ra st1]. simpl in G.
  destruct (ra >=? Retries p); [|exact G].
  apply outputInOrder_emit; [reflexivity|exact G].
Qed.

Lemma outputInOrder_scanLoop (lines : list string) :
  forall lineNum retryQueue st,
    outputInOrder st ->
    outputInOrder (snd (scanLoop p W lines lineNum retryQueue st)).
Proof.
  induction lines as [|line rest IH]; intros n q st H; simpl; [exact H|].
  assert (G : outputInOrder (snd (lineStep p W line (add n 1) q st))).
  { unfold lineStep. destruct (TrimSpace_is_empty line); [exact H|].
    destruct (json_Unmarshal W line) as [order|err];
      [|apply outputInOrder_emit; [reflexivity|exact H]].
    destruct (matches p order); [|exact H].
    pose proof (outputInOrder_processOrder order 0
                  (log InfoLevel (MsgProcessing order) st)
                  (outputInOrder_emit (EvLog InfoLevel (MsgProcessing order)) st
                     eq_refl H)) as G.
    destruct (processOrder p W order 0 _) as [[err|] st1]; simpl in *; [|exact G].
    apply outputInOrder_emit; [reflexivity|exact G]. }
  destruct (lineStep p W line (add n 1) q st) as [q1 st1]. apply IH. exact G.
Qed.

Lemma outputInOrder_Process : outputInOrder (snd (Process p W)).
Proof.
  assert (H0 : outputInOrder init) by reflexivity.
  unfold Process. destruct (os_Open W (InputFile p)) as [err|lines scanErr]; [exact H0|].
  destruct (os_Create W (OutputFile p)) as [err|]; [exact H0|].
  pose proof (outputInOrder_scanLoop lines 0 [] init H0) as H.
  destruct (scanLoop p W lines 0 [] init) as [q st]. simpl in H.
  destruct scanErr as [err|]; [exact H|].
  apply outputInOrder_processRetryQueue. exact H.
Qed.

End WritesSucceed.

(** C7, as stated, fails: a response with status 200 whose body cannot be
    read makes the call fail, and nothing is written. *)
Lemma status_2XX_always_succeeds_counterexample :
  client_Get (Sample.world [] Sample.brokenBody) 0 Sample.url1
  = GetResp 200 (ReadAllErr "unexpected EOF")
  /\ non2XX 200 = false
  /\ processOrder Sample.config (Sample.world [] Sample.brokenBody) Sample.order1 0 init
     = (Some (ErrReadBody "unexpected EOF"), mkState [EvGet Sample.url1] EmptyString).
Proof. repeat split. Qed.

(** C7, amended.  When the response has a status in 200-299, its body is
    read in full and the write succeeds, the call returns [nil] and the
    output file has grown by exactly the body followed by one newline,
    appended after everything written before.  When no write fails, the
    output file of a run is at every point the concatenation of the written
    lines in the order of their writes, that is, in the order in which the
    deliveries succeeded. *)
Theorem success_appends_body (p : Processor) (W : World) :
  (forall (order : Order) (retryCount : Z) (st : State) (code : Z) (body : string),
      client_Get W (List.length (gets (trace st))) (requestURL p order)
      = GetResp code (ReadAllOk body) ->
      200 <= code <= 299 ->
      file_Write W (List.length (writes (trace st))) (body ++ newline)%string = WriteOk ->
      processOrder p W order retryCount st
      = (None,
         mkState (trace st ++ [EvGet (requestURL p order);
                               EvWrite (body ++ newline)%string;
                               EvLog InfoLevel (MsgSuccess (OrderID order))])
                 (output st ++ (body ++ newline))%string))
  /\ ((forall n data, file_Write W n data = WriteOk) ->
      output (snd (Process p W))
      = String.concat EmptyString (writes (trace (snd (Process p W))))).
Proof.
  split.
  - intros order rc st code body Hget Hcode Hwrite.
    rewrite processOrder_unfold, Hget. unfold handleResponse.
    apply non2XX_range in Hcode. rewrite Hcode. unfold Fprintf.
    cbn [emit trace output]. rewrite writes_app. cbn [writes flat_map].
    rewrite app_nil_r, Hwrite. unfold log, emit. cbn [trace output].
    rewrite <- !app_assoc. reflexivity.
  - intros Hw. apply (outputInOrder_Process p W Hw).
Qed.

Lemma success_appends_body_witness :
  processOrder Sample.config (Sample.world [] Sample.status200) Sample.order1 0 init
  = (None,
     mkState [EvGet Sample.url1; EvWrite ("OK" ++ newline)%string;
              EvLog InfoLevel (MsgSuccess "1")]
             ("OK" ++ newline)%string).
Proof.
  apply (proj1 (success_appends_body Sample.config (Sample.world [] Sample.status200))
               Sample.order1 0 init 200 "OK"%string).
  - reflexivity.
  - lia.
  - reflexivity.
Defined.

(** ** Fatal and recoverable failures *)

(** C8. Failing to open the input or to create the output makes [Process]
    return the error before any effect, and an error of the scan makes it
    return the error right after the loop, without the replay.  In every
    other case [Process] returns [nil], whatever the decoder, the endpoint
    and the writes do.  Unless opening or creating failed, every order the
    loop keeps from the lines it was given is requested at least once. *)
Theorem only_resource_failures_abort (p : Processor) (W : World) :
  (forall err,
      os_Open W (InputFile p) = OpenErr err ->
      Process p W = (Some (ErrOpenInput err), init))
  /\ (forall lines scanErr err,
         os_Open W (InputFile p) = OpenOk lines scanErr ->
         os_Create W (OutputFile p) = Some err ->
         Process p W = (Some (ErrCreateOutput err), init))
  /\ (forall lines err,
         os_Open W (InputFile p) = OpenOk lines (Some err) ->
         os_Create W (OutputFile p) = None ->
         Process p W = (Some (ErrReadInput err), snd (scanLoop p W lines 0 [] init)))
  /\ (forall lines,
         os_Open W (InputFile p) = OpenOk lines None ->
         os_Create W (OutputFile p) = None ->
         Process p W
         = (None,
            processRetryQueue p W (fst (scanLoop p W lines 0 [] init))
              (snd (scanLoop p W lines 0 [] init))))
  /\ (forall lines scanErr order,
         os_Open W (InputFile p) = OpenOk lines scanErr ->
         os_Create W (OutputFile p) = None ->
         In order (keptOrders p W lines) ->
         In (requestURL p order) (gets (trace (snd (Process p W))))).
Proof.
  split; [|split; [|split; [|split]]].
  - intros err Ho. unfold Process. rewrite Ho. reflexivity.
  - intros lines scanErr err Ho Hc. unfold Process. rewrite Ho, Hc. reflexivity.
  - intros lines err Ho Hc. unfold Process. rewrite Ho, Hc.
    destruct (scanLoop p W lines 0 [] init) as [q st]. reflexivity.
  - intros lines Ho Hc. unfold Process. rewrite Ho, Hc.
    destruct (scanLoop p W lines 0 [] init) as [q st]. reflexivity.
  - intros lines scanErr order Ho Hc Hin. unfold Process. rewrite Ho, Hc.
    pose proof (scanLoop_requests_kept p W lines order Hin 0 [] init) as H.
    destruct (scanLoop p W lines 0 [] init) as [q st]. simpl in H.
    destruct scanErr as [err|]; simpl.
    + eapply requestedSince_gets. exact H.
    + eapply requestedSince_gets.
      eapply requestedSince_extends; [exact H|apply extends_processRetryQueue].
Qed.

Lemma only_resource_failures_abort_witness :
  Process Sample.config
    (mkWorld (fun _ => OpenErr "no such file or directory") (fun _ => None)
             Sample.decode (fun _ _ => Sample.status200) (fun _ _ => WriteOk))
  = (Some (ErrOpenInput "no such file or directory"), init).
Proof.
  apply (proj1 (only_resource_failures_abort Sample.config
                  (mkWorld (fun _ => OpenErr "no such file or directory")
                           (fun _ => None) Sample.decode
                           (fun _ _ => Sample.status200) (fun _ _ => WriteOk)))).
  reflexivity.
Defined.

(** ** Failures after a successful response *)

(** With a retry budget of at least one, the replay of a queued order
    begins with a new request for its URL. *)
Lemma retryOrder_requests (p : Processor) (W : World) (order : Order) (st : State) :
  0 < Retries p ->
  exists evs,
    trace (retryOrder p W order st)
    = trace st
        ++ EvLog InfoLevel (MsgRetryAttempt 1 (Retries p) (OrderID order))
        :: EvGet (requestURL p order) :: evs.
Proof.
  intros HR. unfold retryOrder. rewrite retryLoop_unfold.
  apply Z.ltb_lt in HR. rewrite HR. change (0 + 1) with 1.
  set (st0 := log InfoLevel (MsgRetryAttempt 1 (Retries p) (OrderID order)) st).
  destruct (processOrder_requests_first p W order 0 st0) as [evs He].
  assert (Hext : forall st2, extends (snd (processOrder p W order 0 st0)) st2 ->
                 exists evs2, trace st2
                   = trace st
                       ++ EvLog InfoLevel (MsgRetryAttempt 1 (Retries p) (OrderID order))
                       :: EvGet (requestURL p order) :: evs2).
  { intros st2 [[evs2 H2] _]. exists (evs ++ evs2).
    rewrite H2, He. unfold st0. simpl. rewrite <- !app_assoc. reflexivity. }
  destruct (processOrder p W order 0 st0) as [[err|] st1]; simpl in Hext.
  - pose proof (extends_retryLoop p W order 1
                  (log WarnLevel (MsgRetryFailed (OrderID order) err) st1)) as H.
    destruct (retryLoop p W order 1 _) as [ra st2]. simpl in H.
    assert (G : extends st1 st2)
      by (eapply extends_trans; [apply extends_log|exact H]).
    destruct (ra >=? Retries p); apply Hext; [|exact G].
    eapply extends_trans; [exact G|apply extends_log].
  - destruct (0 >=? Retries p); apply Hext; [apply extends_log|apply extends_refl].
Qed.

Lemma fold_retryOrder_requests (p : Processor) (W : World) (order : Order)
      (queue : list Order) :
  0 < Retries p -> In order queue ->
  forall st,
    requestedSince st (requestURL p order)
      (fold_left (fun s o => retryOrder p W o s) queue st).
Proof.
  intros HR. induction queue as [|o q IH]; [intros []|].
  intros [->|Hin] st; simpl.
  - destruct (retryOrder_requests p W order st HR) as [evs He].
    eapply requestedSince_extends; [|apply extends_fold_retryOrder].
    exists [EvLog InfoLevel (MsgRetryAttempt 1 (Retries p) (OrderID order))], evs.
    exact He.
  - eapply extends_requestedSince; [apply extends_retryOrder|apply IH; exact Hin].
Qed.

(** C10. When the response has a status in 200-299 but reading its body
    fails, or the write of the body to the output file fails,
    [processOrder] returns the failure at once, at any attempt index: one
    request, no sleep, no retry.  In the first pass the order is then put at
    the end of the retry queue.  With a retry budget of at least one, the
    replay requests the URL of every queued order again, so such an order is
    requested again although its request had succeeded. *)
Theorem late_failure_is_queued_and_replayed (p : Processor) (W : World) (order : Order) :
  let url := requestURL p order in
  (forall retryCount st code err,
      client_Get W (List.length (gets (trace st))) url = GetResp code (ReadAllErr err) ->
      200 <= code <= 299 ->
      processOrder p W order retryCount st
      = (Some (ErrReadBody err), emit (EvGet url) st))
  /\ (forall retryCount st code body n err,
         client_Get W (List.length (gets (trace st))) url = GetResp code (ReadAllOk body) ->
         200 <= code <= 299 ->
         file_Write W (List.length (writes (trace st))) (body ++ newline)%string
         = WriteErr n err ->
         processOrder p W order retryCount st
         = (Some (ErrWriteOutput err),
            mkState (trace st ++ [EvGet url; EvWrite (body ++ newline)%string])
                    (output st ++ String.substring 0 n (body ++ newline))%string))
  /\ (forall line lineNum retryQueue st err,
         TrimSpace_is_empty line = false ->
         json_Unmarshal W line = inl order ->
         matches p order = true ->
         fst (processOrder p W order 0 (log InfoLevel (MsgProcessing order) st))
         = Some err ->
         fst (lineStep p W line lineNum retryQueue st) = retryQueue ++ [order])
  /\ (0 < Retries p ->
      forall queue st,
        In order queue ->
        requestedSince st url (processRetryQueue p W queue st)).
Proof.
  intros url. split; [|split; [|split]].
  - intros rc st code err Hget Hcode.
    rewrite processOrder_unfold. fold url. rewrite Hget. unfold handleResponse.
    apply non2XX_range in Hcode. rewrite Hcode. reflexivity.
  - intros rc st code body n err Hget Hcode Hwrite.
    rewrite processOrder_unfold. fold url. rewrite Hget. unfold handleResponse.
    apply non2XX_range in Hcode. rewrite Hcode. unfold Fprintf.
    cbn [emit trace output]. rewrite writes_app. cbn [writes flat_map].
    rewrite app_nil_r, Hwrite. rewrite <- !app_assoc. reflexivity.
  - intros line n q st err Hblank Hdec Hm Hfail.
    unfold lineStep. rewrite Hblank, Hdec, Hm.
    destruct (processOrder p W order 0 _) as [[e|] st1]; [reflexivity|discriminate Hfail].
  - intros HR queue st Hin. unfold processRetryQueue.
    destruct queue as [|o q]; [destruct Hin|].
    eapply extends_requestedSince; [apply extends_log|].
    apply fold_retryOrder_requests; assumption.
Qed.

Lemma late_failure_is_queued_and_replayed_witness :
  processOrder Sample.config (Sample.world [] Sample.brokenBody) Sample.order1 0 init
  = (Some (ErrReadBody "unexpected EOF"), emit (EvGet Sample.url1) init).
Proof.
  apply (proj1 (late_failure_is_queued_and_replayed
                  Sample.config (Sample.world [] Sample.brokenBody) Sample.order1)
               0 init 200 "unexpected EOF"%string).
  - reflexivity.
  - lia.
Defined.

(** * Further properties *)

(** ** Invariants of a run *)

(** A property of the state that every log call and every call to
    [processOrder] keeps is kept by the replay, by the loop over the lines
    and by [Process]. *)
Section Invariant.

Variable p : Processor.
Variable W : World.
Variable Inv : State -> Prop.

Hypothesis Inv_log : forall lvl m st, Inv st -> Inv (log lvl m st).
Hypothesis Inv_processOrder :
  forall order retryCount st,
    Inv st -> Inv (snd (processOrder p W order retryCount st)).

Lemma Inv_retryLoop (order : Order) (retryAttempts : Z) (st : State) :
  Inv st -> Inv (snd (retryLoop p W order retryAttempts st)).
Proof.
  apply (retryLoop_elim p W (fun _ _ st r => Inv st -> Inv (snd r))).
  - intros o ra n s _ H. exact H.
  - intros o ra l s err st1 IH Hcall _ H. apply IH, Inv_log.
    change st1 with (snd (Some err, st1)). rewrite <- Hcall.
    apply Inv_processOrder, Inv_log. exact H.
  - intros o ra l s st1 Hcall _ H.
    change st1 with (snd (@None error, st1)). rewrite <- Hcall.
    apply Inv_processOrder, Inv_log. exact H.
Qed.

Lemma Inv_retryOrder (order : Order) (st : State) :
  Inv st -> Inv (retryOrder p W order st).
Proof.
  intros H. unfold retryOrder.
  pose proof (Inv_retryLoop order 0 st H) as G.
  destruct (retryLoop p W order 0 st) as [ra st1]. simpl in G.
  destruct (ra >=? Retries p); [apply Inv_log|]; exact G.
Qed.

Lemma Inv_processRetryQueue (queue : list Order) (st : State) :
  Inv st -> Inv (processRetryQueue p W queue st).
Proof.
  unfold processRetryQueue. destruct queue as [|o q]; [trivial|].
  intros H.
  apply (Inv_log InfoLevel (MsgQueue (Z.of_nat (List.length (o :: q))))) in H.
  revert H.
  generalize (log InfoLevel (MsgQueue (Z.of_nat (List.length (o :: q)))) st).
  generalize (o :: q) as l. clear o q st.
  induction l as [|o l IH]; intros s H; simpl; [exact H|].
  apply IH, Inv_retryOrder, H.
Qed.

Lemma Inv_lineStep (line : string) (lineNum : Z) (retryQueue : list Order)
      (st : State) :
  Inv st -> Inv (snd (lineStep p W line lineNum retryQueue st)).
Proof.
  intros H. unfold lineStep. destruct (TrimSpace_is_empty line); [exact H|].
  destruct (json_Unmarshal W line) as [order|err]; [|apply Inv_log, H].
  destruct (matches p order); [|exact H].
  pose proof (Inv_processOrder order 0 _ (Inv_log InfoLevel (MsgProcessing order) st H))
    as G.
  destruct (processOrder p W order 0 _) as [[err|] st1]; simpl in *;
    [apply Inv_log|]; exact G.
Qed.

Lemma Inv_scanLoop (lines : list string) :
  forall lineNum retryQueue st,
    Inv st -> Inv (snd (scanLoop p W lines lineNum retryQueue st)).
Proof.
  induction lines as [|line rest IH]; intros n q st H; simpl; [exact H|].
  pose proof (Inv_lineStep line (add n 1) q st H) as G.
  destruct (lineStep p W line (add n 1) q st) as [q1 st1]. apply IH, G.
Qed.

Lemma Inv_Process : Inv init -> Inv (snd (Process p W)).
Proof.
  intros H0. unfold Process.
  destruct (os_Open W (InputFile p)) as [err|lines scanErr]; [exact H0|].
  destruct (os_Create W (OutputFile p)) as [err|]; [exact H0|].
  pose proof (Inv_scanLoop lines 0 [] init H0) as H.
  destruct (scanLoop p W lines 0 [] init) as [q st]. simpl in H.
  destruct scanErr as [err|]; [exact H|].
  apply Inv_processRetryQueue, H.
Qed.

End Invariant.

(** ** The shape of one call to [processOrder] *)

Lemma handleResponse_events (W : World) (order : Order) (code : Z)
      (body : ReadAllResult) (st : State) :
  exists evs,
    trace (snd (handleResponse W order code body st)) = trace st ++ evs
    /\ gets evs = [] /\ sleeps evs = [].
Proof.
  unfold handleResponse. destruct (non2XX code).
  - exists []. rewrite app_nil_r. repeat split.
  - destruct body as [b|err].
    + unfold Fprintf. destruct (file_Write W _ _) as [|n err]; simpl.
      * eexists [_; _]. rewrite <- app_assoc. repeat split.
      * eexists [_]. repeat split.
    + exists []. rewrite app_nil_r. repeat split.
Qed.

Lemma processOrder_shape (p : Processor) (W : World) (order : Order) (m : nat) :
  forall retryCount st,
    Z.to_nat (Retries p - retryCount) = m ->
    exists j evs,
      (j <= m)%nat
      /\ trace (snd (processOrder p W order retryCount st)) = trace st ++ evs
      /\ gets evs = repeat (requestURL p order) (S j)
      /\ sleeps evs = map (mul Second) (countFrom (retryCount + 1) j).
Proof.
  induction m as [|m IH]; intros rc st Hm; rewrite processOrder_unfold;
    destruct (client_Get W _ _) as [err|code body].
  - destruct (Z.ltb_spec rc (Retries p)) as [H|H]; [lia|].
    exists O, [EvGet (requestURL p order)]. repeat split. lia.
  - destruct (handleResponse_events W order code body
                (emit (EvGet (requestURL p order)) st)) as [evs [Ht [Hg Hs]]].
    exists O, (EvGet (requestURL p order) :: evs). split; [lia|].
    rewrite Ht. simpl. rewrite <- app_assoc. repeat split.
    + simpl. rewrite Hg. reflexivity.
    + simpl. exact Hs.
  - destruct (Z.ltb_spec rc (Retries p)) as [H|H]; [|lia].
    destruct (IH (rc + 1)
                (backoff p order rc err (emit (EvGet (requestURL p order)) st)))
      as [j [evs [Hj [Ht [Hg Hs]]]]]; [lia|].
    exists (S j),
      ([EvGet (requestURL p order);
        EvLog DebugLevel (MsgRetryCount rc (Retries p));
        EvLog WarnLevel (MsgRequestFailed (OrderID order) (rc + 1) (Retries p) err);
        EvSleep (mul Second (rc + 1))] ++ evs).
    split; [lia|]. rewrite Ht. simpl. rewrite <- !app_assoc.
    split; [reflexivity|]. split.
    + simpl. rewrite Hg. reflexivity.
    + simpl. rewrite Hs. reflexivity.
  - destruct (handleResponse_events W order code body
                (emit (EvGet (requestURL p order)) st)) as [evs [Ht [Hg Hs]]].
    exists O, (EvGet (requestURL p order) :: evs). split; [lia|].
    rewrite Ht. simpl. rewrite <- app_assoc. repeat split.
    + simpl. rewrite Hg. reflexivity.
    + simpl. exact Hs.
Qed.

(** What one call adds to the requests and to the sleeps of the trace. *)
Lemma processOrder_gets_sleeps
      (p : Processor) (W : World) (order : Order) (retryCount : Z) (st : State) :
  exists j : nat,
    Z.of_nat j <= Z.max 0 (Retries p - retryCount)
    /\ gets (trace (snd (processOrder p W order retryCount st)))
       = gets (trace st) ++ repeat (requestURL p order) (S j)
    /\ sleeps (trace (snd (processOrder p W order retryCount st)))
       = sleeps (trace st) ++ map (mul Second) (countFrom (retryCount + 1) j).
Proof.
  destruct (processOrder_shape p W order _ retryCount st eq_refl)
    as [j [evs [Hj [Ht [Hg Hs]]]]].
  exists j. split; [lia|]. rewrite Ht, gets_app, sleeps_app, Hg, Hs.
  split; reflexivity.
Qed.

(** X1. Whatever the endpoint does, a call to [processOrder] entered at
    [retryCount] sends one request and then [j] retries, for some [j] not
    above the number of indices left below [p.Retries]; all go to the order's
    URL, and the sleeps between them are those of the indices
    [retryCount + 1], ..., [retryCount + j], in this order. *)
Theorem processOrder_requests_and_sleeps
        (p : Processor) (W : World) (order : Order) (retryCount : Z) (st : State) :
  exists j : nat,
    Z.of_nat j <= Z.max 0 (Retries p - retryCount)
    /\ gets (trace (snd (processOrder p W order retryCount st)))
       = gets (trace st) ++ repeat (requestURL p order) (S j)
    /\ sleeps (trace (snd (processOrder p W order retryCount st)))
       = sleeps (trace st) ++ map (mul Second) (countFrom (retryCount + 1) j).
Proof.
  destruct (processOrder_shape p W order _ retryCount st eq_refl)
    as [j [evs [Hj [Ht [Hg Hs]]]]].
  exists j. split; [lia|]. rewrite Ht, gets_app, sleeps_app, Hg, Hs.
  split; reflexivity.
Qed.

(** ** Sleeps *)

Lemma processOrder_answered (p : Processor) (W : World) (order : Order)
      (retryCount : Z) (st : State) (code : Z) (body : ReadAllResult) :
  client_Get W (List.length (gets (trace st))) (requestURL p order) = GetResp code body ->
  processOrder p W order retryCount st
  = handleResponse W order code body (emit (EvGet (requestURL p order)) st).
Proof. intros H. rewrite processOrder_unfold, H. reflexivity. Qed.

(** X2. When every request gets a response, whatever its status, a run
    never sleeps: neither in the first pass nor in the replay. *)
Theorem answered_requests_never_sleep (p : Processor) (W : World) :
  (forall n url, exists code body, client_Get W n url = GetResp code body) ->
  sleeps (trace (snd (Process p W))) = [].
Proof.
  intros Hans.
  apply (Inv_Process p W (fun st => sleeps (trace st) = [])); [| |reflexivity].
  - intros lvl m st H. simpl. rewrite sleeps_app, H. reflexivity.
  - intros order rc st H.
    destruct (Hans (List.length (gets (trace st))) (requestURL p order))
      as [code [body Hget]].
    rewrite (processOrder_answered p W order rc st code body Hget).
    destruct (handleResponse_events W order code body
                (emit (EvGet (requestURL p order)) st)) as [evs [Ht [_ Hs]]].
    rewrite Ht, sleeps_app, Hs. simpl. rewrite sleeps_app, H. reflexivity.
Qed.

Lemma answered_requests_never_sleep_witness :
  sleeps (trace (snd (Process Sample.config
                        (Sample.world [Sample.jsonLine "1" "TSLA" "sell"]
                                      Sample.status500)))) = [].
Proof.
  apply answered_requests_never_sleep.
  intros n url. exists 500, (ReadAllOk "oops"). reflexivity.
Defined.

(** ** A retry budget of zero *)

Lemma retryOrder_no_budget (p : Processor) (W : World) (order : Order) (st : State) :
  Retries p <= 0 ->
  retryOrder p W order st = log ErrorLevel (MsgExceeded (OrderID order)) st.
Proof.
  intros HR. unfold retryOrder. rewrite retryLoop_unfold.
  destruct (Z.ltb_spec 0 (Retries p)) as [H|H]; [lia|].
  destruct (Z.geb_spec 0 (Retries p)) as [G|G]; [reflexivity|lia].
Qed.

Lemma fold_retryOrder_no_budget (p : Processor) (W : World) (queue : list Order) :
  Retries p <= 0 ->
  forall st,
    fold_left (fun s o => retryOrder p W o s) queue st
    = mkState (trace st
                 ++ map (fun o => EvLog ErrorLevel (MsgExceeded (OrderID o))) queue)
              (output st).
Proof.
  intros HR. induction queue as [|o q IH]; intros st; simpl.
  - rewrite app_nil_r. destruct st; reflexivity.
  - rewrite retryOrder_no_budget by exact HR. rewrite IH. simpl.
    rewrite <- app_assoc. reflexivity.
Qed.

Lemma lineStep_gets_no_budget (p : Processor) (W : World) (line : string)
      (lineNum : Z) (retryQueue : list Order) (st : State) :
  Retries p <= 0 ->
  gets (trace (snd (lineStep p W line lineNum retryQueue st)))
  = gets (trace st) ++ map (requestURL p) (keptOrders p W [line]).
Proof.
  intros HR. unfold lineStep, keptOrders. simpl.
  destruct (TrimSpace_is_empty line); [simpl; rewrite app_nil_r; reflexivity|].
  destruct (json_Unmarshal W line) as [order|err];
    [|simpl; rewrite gets_app, !app_nil_r; reflexivity].
  destruct (matches p order); [|simpl; rewrite app_nil_r; reflexivity].
  destruct (processOrder_gets_sleeps p W order 0
              (log InfoLevel (MsgProcessing order) st)) as [j [Hj [Hg _]]].
  assert (j = O) by lia. subst j.
  simpl in Hg. rewrite gets_app in Hg. simpl in Hg. rewrite app_nil_r in Hg.
  destruct (processOrder p W order 0 _) as [[err|] st1]; simpl in Hg |- *.
  - rewrite gets_app, Hg. simpl. rewrite app_nil_r. reflexivity.
  - exact Hg.
Qed.

Lemma scanLoop_gets_no_budget (p : Processor) (W : World) (lines : list string) :
  Retries p <= 0 ->
  forall lineNum retryQueue st,
    gets (trace (snd (scanLoop p W lines lineNum retryQueue st)))
    = gets (trace st) ++ map (requestURL p) (keptOrders p W lines).
Proof.
  intros HR. induction lines as [|line rest IH]; intros n q st.
  - simpl. rewrite app_nil_r. reflexivity.
  - cbn [scanLoop]. rewrite keptOrders_cons, map_app, app_assoc.
    rewrite <- (lineStep_gets_no_budget p W line (add n 1) q st HR).
    destruct (lineStep p W line (add n 1) q st) as [q1 st1]. apply IH.
Qed.

(** X3. With a retry budget of zero (or below) nothing is retried: a run
    requests every kept order exactly once, in the order of the input, and
    the replay sends no request at all; it only announces the queue and
    reports every queued order as having exceeded the maximum. *)
Theorem no_budget_no_retry (p : Processor) (W : World) :
  Retries p <= 0 ->
  (forall order queue st,
      processRetryQueue p W (order :: queue) st
      = mkState
          (trace st
             ++ EvLog InfoLevel (MsgQueue (Z.of_nat (List.length (order :: queue))))
             :: map (fun o => EvLog ErrorLevel (MsgExceeded (OrderID o)))
                    (order :: queue))
          (output st))
  /\ (forall lines scanErr,
         os_Open W (InputFile p) = OpenOk lines scanErr ->
         os_Create W (OutputFile p) = None ->
         gets (trace (snd (Process p W)))
         = map (requestURL p) (keptOrders p W lines)).
Proof.
  intros HR.
  assert (Hq : forall order queue st,
             processRetryQueue p W (order :: queue) st
             = mkState
                 (trace st
                    ++ EvLog InfoLevel (MsgQueue (Z.of_nat (List.length (order :: queue))))
                    :: map (fun o => EvLog ErrorLevel (MsgExceeded (OrderID o)))
                           (order :: queue))
                 (output st)).
  { intros order queue st. unfold processRetryQueue.
    rewrite fold_retryOrder_no_budget by exact HR.
    simpl. rewrite <- app_assoc. reflexivity. }
  split; [exact Hq|].
  intros lines scanErr Ho Hc. unfold Process. rewrite Ho, Hc.
  pose proof (scanLoop_gets_no_budget p W lines HR 0 [] init) as H.
  destruct (scanLoop p W lines 0 [] init) as [q st]. simpl in H.
  destruct scanErr as [err|]; simpl; [exact H|].
  destruct q as [|o q]; [exact H|].
  rewrite Hq. simpl. rewrite gets_app, H. simpl.
  assert (G : forall l, gets (map (fun o => EvLog ErrorLevel (MsgExceeded (OrderID o))) l)
                        = []).
  { induction l as [|x l IHl]; simpl; [reflexivity|exact IHl]. }
  rewrite G, app_nil_r. reflexivity.
Qed.

Lemma no_budget_no_retry_witness :
  gets (trace (snd (Process
                      (mkProcessor "in" "out" "TSLA" "sell" 0 0 false "http://h")
                      (Sample.world [Sample.jsonLine "1" "TSLA" "sell"]
                                    Sample.refused))))
  = ["http://h/1"%string].
Proof.
  apply (proj2 (no_budget_no_retry
                  (mkProcessor "in" "out" "TSLA" "sell" 0 0 false "http://h")
                  (Sample.world [Sample.jsonLine "1" "TSLA" "sell"] Sample.refused)
                  (Z.le_refl 0))
               [Sample.jsonLine "1" "TSLA" "sell"] None);
    reflexivity.
Defined.

(** ** How many requests a replay can send *)

Lemma gets_log (lvl : Level) (m : Message) (st : State) :
  gets (trace (log lvl m st)) = gets (trace st).
Proof. simpl. rewrite gets_app. simpl. apply app_nil_r. Qed.

Lemma retryLoop_request_bound (p : Processor) (W : World) (order : Order) (m : nat) :
  forall retryAttempts st,
    Z.to_nat (Retries p - retryAttempts) = m ->
    2 * (Z.of_nat (List.length (gets (trace (snd (retryLoop p W order retryAttempts st)))))
         - Z.of_nat (List.length (gets (trace st))))
    <= Z.of_nat m * (Z.of_nat m + 3).
Proof.
  induction m as [|m IH]; intros ra st Hm; rewrite retryLoop_unfold.
  - destruct (Z.ltb_spec ra (Retries p)) as [H|H]; [lia|]. cbn [snd]. lia.
  - destruct (Z.ltb_spec ra (Retries p)) as [H|H]; [|lia].
    destruct (processOrder_gets_sleeps p W order ra
                (log InfoLevel (MsgRetryAttempt (ra + 1) (Retries p) (OrderID order)) st))
      as [j [Hj [Hg _]]].
    rewrite gets_log in Hg.
    apply (f_equal (@List.length string)) in Hg.
    rewrite length_app, repeat_length in Hg.
    destruct (processOrder p W order ra _) as [[err|] st1]; cbn [snd] in Hg |- *.
    + specialize (IH (ra + 1) (log WarnLevel (MsgRetryFailed (OrderID order) err) st1)).
      rewrite gets_log in IH. nia.
    + nia.
Qed.

Lemma unreachable_request_sum (retries : Z) (m : nat) :
  forall from,
    Z.to_nat (retries - from) = m ->
    2 * Z.of_nat (list_sum (map (fun i => S (Z.to_nat (retries - i))) (countFrom from m)))
    = Z.of_nat m * (Z.of_nat m + 3).
Proof.
  induction m as [|m IH]; intros from Hm; [reflexivity|].
  cbn [countFrom map list_sum fold_right].
  change (fold_right Nat.add 0%nat ?l) with (list_sum l).
  specialize (IH (from + 1)). rewrite Hm. nia.
Qed.

(** X4. The replay of one queued order sends at most [R * (R + 3) / 2]
    requests, [R] being the retry budget (0 when it is negative), whatever
    the endpoint does; an endpoint that cannot be reached makes it send
    exactly that many. *)
Theorem replay_request_bound (p : Processor) (W : World) (order : Order) (st : State) :
  let R := Z.max 0 (Retries p) in
  let sent :=
    Z.of_nat (List.length (gets (trace (retryOrder p W order st))))
    - Z.of_nat (List.length (gets (trace st))) in
  2 * sent <= R * (R + 3)
  /\ ((forall n, exists err, client_Get W n (requestURL p order) = GetErr err) ->
      2 * sent = R * (R + 3)).
Proof.
  intros R sent.
  assert (HR : Z.of_nat (Z.to_nat (Retries p - 0)) = R) by (unfold R; lia).
  split.
  - pose proof (retryLoop_request_bound p W order _ 0 st eq_refl) as H.
    rewrite HR in H. unfold sent, retryOrder.
    destruct (retryLoop p W order 0 st) as [ra st1]. cbn [snd] in H.
    destruct (ra >=? Retries p); [|exact H].
    rewrite gets_log. exact H.
  - intros Hdown.
    assert (Herrs : exists errs, forall n,
                 client_Get W n (requestURL p order) = GetErr (errs n)).
    { exists (fun n => match client_Get W n (requestURL p order) with
                       | GetErr err => err
                       | GetResp _ _ => EmptyString
                       end).
      intros n. destruct (Hdown n) as [err He]. rewrite He. reflexivity. }
    destruct Herrs as [errs Herrs].
    unfold sent. rewrite retryOrder_counts_up. unfold retryOrder_at.
    destruct (replayAt_unreachable p W order errs Herrs
                (countFrom 0 (Z.to_nat (Retries p))) 0 st) as [Hf Hl].
    destruct (replayAt p W order _ 0 st) as [exhausted st1].
    cbn [fst snd] in Hf, Hl. subst exhausted. rewrite gets_log, Hl, Nat2Z.inj_add.
    pose proof (unreachable_request_sum (Retries p) (Z.to_nat (Retries p)) 0) as Hsum.
    replace (Z.to_nat (Retries p - 0)) with (Z.to_nat (Retries p)) in HR by (f_equal; lia).
    rewrite HR in Hsum. rewrite <- Hsum by (f_equal; lia). lia.
Qed.

Lemma replay_request_bound_witness :
  2 * (Z.of_nat (List.length
                   (gets (trace (retryOrder Sample.config
                                   (Sample.world [] Sample.refused)
                                   Sample.order1 init))))
       - Z.of_nat (List.length (gets (trace init))))
  = Z.max 0 (Retries Sample.config) * (Z.max 0 (Retries Sample.config) + 3).
Proof.
  apply (proj2 (replay_request_bound Sample.config (Sample.world [] Sample.refused)
                  Sample.order1 init)).
  intros n. exists "connection refused"%string. reflexivity.
Defined.

(** ** A run in which every delivery succeeds at once *)

Lemma processOrder_delivers (p : Processor) (W : World) (order : Order)
      (retryCount : Z) (st : State) (code : Z) (body : string) :
  client_Get W (List.length (gets (trace st))) (requestURL p order)
  = GetResp code (ReadAllOk body) ->
  200 <= code <= 299 ->
  file_Write W (List.length (writes (trace st))) (body ++ newline)%string = WriteOk ->
  processOrder p W order retryCount st
  = (None,
     mkState (trace st ++ [EvGet (requestURL p order);
                           EvWrite (body ++ newline)%string;
                           EvLog InfoLevel (MsgSuccess (OrderID order))])
             (output st ++ (body ++ newline))%string).
Proof.
  intros Hget Hcode Hwrite.
  rewrite processOrder_unfold, Hget. unfold handleResponse.
  apply non2XX_range in Hcode. rewrite Hcode. unfold Fprintf.
  cbn [emit trace output]. rewrite writes_app. cbn [writes flat_map].
  rewrite app_nil_r, Hwrite. unfold log, emit. cbn [trace output].
  rewrite <- !app_assoc. reflexivity.
Qed.

Lemma concat_cons (x : string) (l : list string) :
  String.concat EmptyString (x :: l) = (x ++ String.concat EmptyString l)%string.
Proof. apply (concat_app [x] l). Qed.

Section AllDelivered.

Variable p : Processor.
Variable W : World.
Variable bodies : nat -> string.

Hypothesis answers_2XX :
  forall n url, exists code,
    200 <= code <= 299 /\ client_Get W n url = GetResp code (ReadAllOk (bodies n)).
Hypothesis writes_succeed : forall n data, file_Write W n data = WriteOk.

Lemma lineStep_all_delivered (line : string) (lineNum : Z)
      (retryQueue : list Order) (st : State) :
  let r := lineStep p W line lineNum retryQueue st in
  fst r = retryQueue
  /\ gets (trace (snd r)) = gets (trace st) ++ map (requestURL p) (keptOrders p W [line])
  /\ output (snd r)
     = (output st ++ written bodies (List.length (gets (trace st)))
                             (List.length (keptOrders p W [line])))%string.
Proof.
  unfold lineStep, keptOrders, written. simpl.
  destruct (TrimSpace_is_empty line);
    [simpl; rewrite app_nil_r, string_app_nil_r; repeat split|].
  destruct (json_Unmarshal W line) as [order|err];
    [|simpl; rewrite gets_app, !app_nil_r, string_app_nil_r; repeat split].
  destruct (matches p order);
    [|simpl; rewrite app_nil_r, string_app_nil_r; repeat split].
  set (st0 := log InfoLevel (MsgProcessing order) st).
  destruct (answers_2XX (List.length (gets (trace st0))) (requestURL p order))
    as [code [Hcode Hget]].
  rewrite (processOrder_delivers p W order 0 st0 code _ Hget Hcode (writes_succeed _ _)).
  cbn [fst snd trace output]. unfold st0. rewrite !gets_app, gets_log.
  simpl. repeat split.
Qed.

Lemma scanLoop_all_delivered (lines : list string) :
  forall lineNum retryQueue st,
    let r := scanLoop p W lines lineNum retryQueue st in
    fst r = retryQueue
    /\ gets (trace (snd r)) = gets (trace st) ++ map (requestURL p) (keptOrders p W lines)
    /\ output (snd r)
       = (output st ++ written bodies (List.length (gets (trace st)))
                               (List.length (keptOrders p W lines)))%string.
Proof.
  induction lines as [|line rest IH]; intros n q st.
  - unfold written. simpl. rewrite app_nil_r, string_app_nil_r. repeat split.
  - cbn [scanLoop]. rewrite keptOrders_cons.
    destruct (lineStep_all_delivered line (add n 1) q st) as [Hq [Hg Ho]].
    destruct (lineStep p W line (add n 1) q st) as [q1 st1].
    cbn [fst snd] in Hq, Hg, Ho. subst q1.
    destruct (IH (add n 1) q st1) as [Hq' [Hg' Ho']].
    split; [exact Hq'|]. split.
    + rewrite Hg', Hg, map_app, app_assoc. reflexivity.
    + rewrite Ho', Ho, Hg. unfold written.
      rewrite !length_app, length_map, seq_app, map_app, concat_app.
      rewrite string_app_assoc. reflexivity.
Qed.

Lemma Process_all_delivered (lines : list string) (scanErr : option string) :
  os_Open W (InputFile p) = OpenOk lines scanErr ->
  os_Create W (OutputFile p) = None ->
  gets (trace (snd (Process p W))) = map (requestURL p) (keptOrders p W lines)
  /\ output (snd (Process p W)) = written bodies 0 (List.length (keptOrders p W lines))
  /\ fst (scanLoop p W lines 0 [] init) = [].
Proof.
  intros Ho Hc. unfold Process. rewrite Ho, Hc.
  destruct (scanLoop_all_delivered lines 0 [] init) as [Hq [Hg Hout]].
  destruct (scanLoop p W lines 0 [] init) as [q st].
  cbn [fst snd] in Hq, Hg, Hout. subst q.
  assert (G : snd (match scanErr with
                   | Some err => (Some (ErrReadInput err), st)
                   | None => (None, processRetryQueue p W [] st)
                   end) = st) by (destruct scanErr; reflexivity).
  rewrite G. split; [exact Hg|]. split; [exact Hout|reflexivity].
Qed.

End AllDelivered.

(** X5. When every request is answered with a status in 200-299 and a
    readable body, and every write succeeds, a run requests each kept order
    exactly once, in the order of the input, queues nothing, and the output
    file is made of the bodies of the responses, each followed by a newline,
    in the order of the requests. *)
Theorem all_delivered_first_time
        (p : Processor) (W : World) (bodies : nat -> string)
        (lines : list string) (scanErr : option string) :
  (forall n url, exists code,
      200 <= code <= 299 /\ client_Get W n url = GetResp code (ReadAllOk (bodies n))) ->
  (forall n data, file_Write W n data = WriteOk) ->
  os_Open W (InputFile p) = OpenOk lines scanErr ->
  os_Create W (OutputFile p) = None ->
  gets (trace (snd (Process p W))) = map (requestURL p) (keptOrders p W lines)
  /\ output (snd (Process p W))
     = String.concat EmptyString
         (map (fun k => (bodies k ++ newline)%string)
              (seq 0 (List.length (keptOrders p W lines))))
  /\ fst (scanLoop p W lines 0 [] init) = [].
Proof.
  intros Hans Hw Ho Hc.
  exact (Process_all_delivered p W bodies Hans Hw lines scanErr Ho Hc).
Qed.

Lemma all_delivered_first_time_witness :
  output (snd (Process Sample.config
                 (Sample.world [Sample.jsonLine "1" "TSLA" "sell";
                                Sample.jsonLine "2" "AAPL" "sell"]
                               Sample.status200)))
  = ("OK" ++ newline)%string.
Proof.
  apply (all_delivered_first_time Sample.config
           (Sample.world [Sample.jsonLine "1" "TSLA" "sell";
                          Sample.jsonLine "2" "AAPL" "sell"] Sample.status200)
           (fun _ => "OK"%string)
           [Sample.jsonLine "1" "TSLA" "sell"; Sample.jsonLine "2" "AAPL" "sell"] None).
  - intros n url. exists 200. split; [lia|reflexivity].
  - intros n data. reflexivity.
  - reflexivity.
  - reflexivity.
Defined.

(** ** An input without any kept order *)

Lemma scanLoop_nothing_kept (p : Processor) (W : World) (lines : list string) :
  keptOrders p W lines = [] ->
  forall lineNum retryQueue st,
  exists warnings,
    scanLoop p W lines lineNum retryQueue st
    = (retryQueue, mkState (trace st ++ warnings) (output st))
    /\ Forall isNotJSONWarning warnings.
Proof.
  induction lines as [|line rest IH]; intros Hk n q st.
  - exists []. simpl. rewrite app_nil_r. destruct st. split; [reflexivity|constructor].
  - rewrite keptOrders_cons in Hk. apply app_eq_nil in Hk. destruct Hk as [Hl Hr].
    cbn [scanLoop].
    assert (Hstep : lineStep p W line (add n 1) q st = (q, st)
                    \/ exists err,
                        lineStep p W line (add n 1) q st
                        = (q, log WarnLevel (MsgNotJSON (add n 1) err) st)).
    { unfold lineStep. unfold keptOrders in Hl. simpl in Hl.
      destruct (TrimSpace_is_empty line); [left; reflexivity|].
      destruct (json_Unmarshal W line) as [order|err]; [|right; exists err; reflexivity].
      destruct (matches p order); [discriminate Hl|left; reflexivity]. }
    destruct Hstep as [Hs|[err Hs]]; rewrite Hs.
    + apply IH. exact Hr.
    + destruct (IH Hr (add n 1) q (log WarnLevel (MsgNotJSON (add n 1) err) st))
        as [ws [He Hw]].
      exists (EvLog WarnLevel (MsgNotJSON (add n 1) err) :: ws).
      rewrite He. simpl. rewrite <- app_assoc. split; [reflexivity|].
      constructor; [exists (add n 1), err; reflexivity|exact Hw].
Qed.

(** X6. When no line of the input yields a kept order (blank lines, lines
    that do not decode, orders that fail the filter), a run sends no request
    and writes nothing: apart from the warnings for the lines that do not
    decode it has no effect, and the output file stays empty. *)
Theorem nothing_kept_nothing_done
        (p : Processor) (W : World) (lines : list string) (scanErr : option string) :
  os_Open W (InputFile p) = OpenOk lines scanErr ->
  os_Create W (OutputFile p) = None ->
  keptOrders p W lines = [] ->
  Forall isNotJSONWarning (trace (snd (Process p W)))
  /\ gets (trace (snd (Process p W))) = []
  /\ output (snd (Process p W)) = EmptyString.
Proof.
  intros Ho Hc Hk. unfold Process. rewrite Ho, Hc.
  destruct (scanLoop_nothing_kept p W lines Hk 0 [] init) as [ws [He Hw]].
  rewrite He.
  assert (G : snd (match scanErr with
                   | Some err => (Some (ErrReadInput err), mkState (trace init ++ ws) (output init))
                   | None => (None, processRetryQueue p W []
                                      (mkState (trace init ++ ws) (output init)))
                   end) = mkState ws EmptyString) by (destruct scanErr; reflexivity).
  rewrite G. simpl. split; [exact Hw|]. split; [|reflexivity].
  clear -Hw. induction Hw as [|e l [n [err ->]] _ IH]; [reflexivity|exact IH].
Qed.

Lemma nothing_kept_nothing_done_witness :
  output (snd (Process Sample.config
                 (Sample.world ["junk"%string; Sample.jsonLine "2" "AAPL" "sell"]
                               Sample.status200)))
  = EmptyString.
Proof.
  apply (nothing_kept_nothing_done Sample.config
           (Sample.world ["junk"%string; Sample.jsonLine "2" "AAPL" "sell"]
                         Sample.status200)
           ["junk"%string; Sample.jsonLine "2" "AAPL" "sell"] None);
    reflexivity.
Defined.

(** ** The loop over the lines, piece by piece *)

Lemma scanLoop_app (p : Processor) (W : World) (lines1 lines2 : list string) :
  forall lineNum retryQueue st,
    min_int <= lineNum ->
    lineNum + Z.of_nat (List.length lines1) <= max_int ->
    scanLoop p W (lines1 ++ lines2) lineNum retryQueue st
    = scanLoop p W lines2 (lineNum + Z.of_nat (List.length lines1))
        (fst (scanLoop p W lines1 lineNum retryQueue st))
        (snd (scanLoop p W lines1 lineNum retryQueue st)).
Proof.
  induction lines1 as [|line rest IH]; intros n q st Hlo Hhi.
  - simpl. rewrite Z.add_0_r. reflexivity.
  - cbn [app scanLoop].
    assert (Hadd : add n 1 = n + 1).
    { unfold add, wrap64. unfold min_int, max_int in *.
      cbn [List.length] in Hhi. rewrite Z.mod_small; lia. }
    rewrite Hadd. destruct (lineStep p W line (n + 1) q st) as [q1 st1].
    rewrite IH; [|unfold min_int in *; lia|cbn [List.length] in Hhi; lia].
    replace (n + Z.of_nat (List.length (line :: rest)))
      with (n + 1 + Z.of_nat (List.length rest)) by (cbn [List.length]; lia).
    reflexivity.
Qed.

(** X7. Scanning an input is scanning its first part and then the rest with
    the line counter, the queue and the state the first part left; the
    counter counts every line, blank and skipped ones too, so the warning for
    a line that does not decode carries the line's position in the file,
    counted from 1. *)
Theorem scanLoop_composes
        (p : Processor) (W : World) (before : list string) (line : string)
        (rest : list string) (retryQueue : list Order) (st : State) :
  Z.of_nat (List.length before) < max_int ->
  let r := scanLoop p W before 0 retryQueue st in
  let position := Z.of_nat (List.length before) + 1 in
  scanLoop p W (before ++ line :: rest) 0 retryQueue st
  = scanLoop p W (line :: rest) (Z.of_nat (List.length before)) (fst r) (snd r)
  /\ (forall err,
         TrimSpace_is_empty line = false ->
         json_Unmarshal W line = inr err ->
         scanLoop p W (before ++ line :: rest) 0 retryQueue st
         = scanLoop p W rest position (fst r)
             (log WarnLevel (MsgNotJSON position err) (snd r))).
Proof.
  intros Hlen r position.
  assert (Happ : scanLoop p W (before ++ line :: rest) 0 retryQueue st
                 = scanLoop p W (line :: rest) (Z.of_nat (List.length before))
                     (fst r) (snd r)).
  { rewrite scanLoop_app; [reflexivity|unfold min_int; lia|lia]. }
  split; [exact Happ|].
  intros err Hblank Hdec. rewrite Happ. cbn [scanLoop].
  assert (Hadd : add (Z.of_nat (List.length before)) 1 = position).
  { unfold add, wrap64, position. unfold max_int in Hlen. rewrite Z.mod_small; lia. }
  rewrite Hadd. unfold lineStep. rewrite Hblank, Hdec. reflexivity.
Qed.

Lemma scanLoop_composes_witness :
  scanLoop Sample.config (Sample.world [] Sample.status200)
    ([EmptyString; Sample.jsonLine "2" "AAPL" "sell"] ++ "junk"%string :: []) 0 [] init
  = ([], log WarnLevel (MsgNotJSON 3 "invalid character") init).
Proof.
  apply (proj2 (scanLoop_composes Sample.config (Sample.world [] Sample.status200)
                  [EmptyString; Sample.jsonLine "2" "AAPL" "sell"] "junk"%string
                  [] [] init
                  ltac:(unfold max_int; simpl; lia))
               "invalid character"%string);
    reflexivity.
Defined.

(** ** The order of the retry queue *)

Lemma subsequence_nil_l {A : Type} (l : list A) : subsequence [] l.
Proof. induction l as [|x l IH]; constructor; exact IH. Qed.

Lemma subsequence_app_skip {A : Type} (l1 l2 skipped : list A) :
  subsequence l1 l2 -> subsequence l1 (skipped ++ l2).
Proof. intros H. induction skipped as [|x s IH]; simpl; [exact H|constructor; exact IH]. Qed.

Lemma subsequence_incl {A : Type} (l1 l2 : list A) :
  subsequence l1 l2 -> incl l1 l2.
Proof.
  induction 1 as [|x l1 l2 _ IH|x l1 l2 _ IH]; intros a Ha.
  - exact Ha.
  - right. apply IH, Ha.
  - destruct Ha as [->|Ha]; [left; reflexivity|right; apply IH, Ha].
Qed.

Lemma scanLoop_queue_subsequence (p : Processor) (W : World) (lines : list string) :
  forall lineNum retryQueue st,
  exists added,
    fst (scanLoop p W lines lineNum retryQueue st) = retryQueue ++ added
    /\ subsequence added (keptOrders p W lines).
Proof.
  induction lines as [|line rest IH]; intros n q st.
  - exists []. simpl. rewrite app_nil_r. split; [reflexivity|constructor].
  - cbn [scanLoop]. rewrite keptOrders_cons.
    destruct (lineStep_queue p W line (add n 1) q st) as [Hq|[order [Hk Hq]]];
      destruct (lineStep p W line (add n 1) q st) as [q1 st1]; simpl in Hq; subst q1;
      match goal with
      | |- context [scanLoop p W rest ?n1 ?q1 st1] =>
          destruct (IH n1 q1 st1) as [added [Ha Hs]]
      end.
    + exists added. split; [exact Ha|]. apply subsequence_app_skip, Hs.
    + exists (order :: added). rewrite Ha, <- app_assoc. split; [reflexivity|].
      rewrite Hk. simpl. apply subsequence_keep. exact Hs.
Qed.

(** X8. The retry queue the first pass hands to the replay lists the queued
    orders in the order of their lines in the input: it is the sequence of
    the kept orders with some of them left out. *)
Theorem retry_queue_keeps_input_order (p : Processor) (W : World) (lines : list string) :
  subsequence (fst (scanLoop p W lines 0 [] init)) (keptOrders p W lines).
Proof.
  destruct (scanLoop_queue_subsequence p W lines 0 [] init) as [added [Ha Hs]].
  rewrite Ha. exact Hs.
Qed.

(** ** More on the request URL *)

Lemma string_app_inv_head (s a b : string) :
  (s ++ a)%string = (s ++ b)%string -> a = b.
Proof.
  induction s as [|x s IH]; simpl; intros H; [exact H|].
  injection H as H. apply IH, H.
Qed.

(** X9. Under one configuration two orders are requested at the same URL
    exactly when they have the same id. *)
Theorem requestURL_injective (p : Processor) (order1 order2 : Order) :
  requestURL p order1 = requestURL p order2 <-> OrderID order1 = OrderID order2.
Proof.
  unfold requestURL. split.
  - intros H. apply string_app_inv_head in H. injection H as H. exact H.
  - intros H. rewrite H. reflexivity.
Qed.

Lemma TrimRight_fixed (s : string) (c : ascii) :
  noTrailing c s = true -> TrimRight s c = s.
Proof.
  induction s as [|a s IH]; [reflexivity|].
  destruct s as [|b s].
  - simpl. destruct (Ascii.eqb a c); [discriminate|reflexivity].
  - intros H. change (noTrailing c (String a (String b s)))
      with (noTrailing c (String b s)) in H.
    change (TrimRight (String a (String b s)) c)
      with (match TrimRight (String b s) c with
            | EmptyString => if Ascii.eqb a c then EmptyString else String a EmptyString
            | t => String a t
            end).
    rewrite (IH H). reflexivity.
Qed.

(** X10. A base URL that does not end with a slash is used as it is, with
    a slash and the id appended; a base URL that is empty or made of slashes
    only gives the URL [/id], without a host. *)
Theorem requestURL_edge_cases (p : Processor) (order : Order) :
  (noTrailing slash (BaseURL p) = true ->
   requestURL p order = (BaseURL p ++ "/" ++ OrderID order)%string)
  /\ (forall n,
         BaseURL p = replicate n slash ->
         requestURL p order = ("/" ++ OrderID order)%string).
Proof.
  unfold requestURL. split.
  - intros H. rewrite (TrimRight_fixed _ _ H). reflexivity.
  - intros n H. rewrite H, TrimRight_replicate. reflexivity.
Qed.

Lemma requestURL_edge_cases_witness :
  requestURL (mkProcessor "in" "out" "TSLA" "sell" 3 0 false "///") Sample.order1
  = "/1"%string.
Proof.
  apply (proj2 (requestURL_edge_cases
                  (mkProcessor "in" "out" "TSLA" "sell" 3 0 false "///")
                  Sample.order1) 3%nat).
  reflexivity.
Defined.

(** ** More on blank lines *)

Lemma isSpace1_low (a : ascii) : isSpace1 a = true -> (nat_of_ascii a < 128)%nat.
Proof.
  unfold isSpace1, byte_in, byte_is. intros H.
  apply orb_true_iff in H. destruct H as [H|H].
  - apply andb_true_iff in H. destruct H as [_ H]. apply Nat.leb_le in H. lia.
  - apply Nat.eqb_eq in H. lia.
Qed.

Lemma isSpace2_high (a b : ascii) :
  isSpace2 a b = true -> (128 <= nat_of_ascii a)%nat /\ (128 <= nat_of_ascii b)%nat.
Proof.
  unfold isSpace2, byte_is. intros H.
  apply andb_true_iff in H. destruct H as [Ha Hb]. apply Nat.eqb_eq in Ha.
  apply orb_true_iff in Hb. destruct Hb as [Hb|Hb]; apply Nat.eqb_eq in Hb; lia.
Qed.

Lemma isSpace3_high (a b c : ascii) :
  isSpace3 a b c = true ->
  (128 <= nat_of_ascii a)%nat /\ (128 <= nat_of_ascii b)%nat
  /\ (128 <= nat_of_ascii c)%nat.
Proof.
  unfold isSpace3, byte_in, byte_is. intros H.
  repeat match goal with
         | H : (_ || _)%bool = true |- _ => apply orb_true_iff in H; destruct H as [H|H]
         | H : (_ && _)%bool = true |- _ =>
             let H1 := fresh H in apply andb_true_iff in H; destruct H as [H H1]
         | H : Nat.eqb _ _ = true |- _ => apply Nat.eqb_eq in H
         | H : Nat.leb _ _ = true |- _ => apply Nat.leb_le in H
         end; lia.
Qed.

Lemma visible_byte_not_blank_bounded (n : nat) :
  forall (s : string) (a : ascii),
    (String.length s <= n)%nat ->
    In a (list_ascii_of_string s) ->
    (nat_of_ascii a < 128)%nat -> isSpace1 a = false ->
    TrimSpace_is_empty s = false.
Proof.
  induction n as [|n IH]; intros s a Hlen Hin Hlow Hns.
  - destruct s; [destruct Hin|simpl in Hlen; lia].
  - destruct s as [|x s1]; [destruct Hin|]. cbn [TrimSpace_is_empty].
    simpl in Hlen, Hin.
    destruct (isSpace1 x) eqn:Hx.
    + destruct Hin as [->|Hin]; [congruence|]. apply (IH s1 a); [lia|assumption..].
    + destruct s1 as [|y s2]; [reflexivity|]. simpl in Hlen, Hin.
      destruct (isSpace2 x y) eqn:Hxy.
      * apply isSpace2_high in Hxy. destruct Hxy as [Hx2 Hy2].
        destruct Hin as [->|[->|Hin]]; [lia|lia|].
        apply (IH s2 a); [lia|assumption..].
      * destruct s2 as [|z s3]; [reflexivity|]. simpl in Hlen, Hin.
        destruct (isSpace3 x y z) eqn:Hxyz; [|reflexivity].
        apply isSpace3_high in Hxyz. destruct Hxyz as [Hx3 [Hy3 Hz3]].
        destruct Hin as [->|[->|[->|Hin]]]; [lia|lia|lia|].
        apply (IH s3 a); [lia|assumption..].
Qed.

(** X11. A line that holds a byte below 128 other than TAB, LF, VT, FF, CR
    and SPACE anywhere is not blank: it is never skipped silently, but
    decoded (and reported when it does not decode). *)
Theorem visible_byte_not_blank
        (p : Processor) (W : World) (line : string) (a : ascii)
        (lineNum : Z) (retryQueue : list Order) (st : State) :
  In a (list_ascii_of_string line) ->
  (nat_of_ascii a < 128)%nat ->
  isSpace1 a = false ->
  TrimSpace_is_empty line = false
  /\ (forall err,
         json_Unmarshal W line = inr err ->
         lineStep p W line lineNum retryQueue st
         = (retryQueue, log WarnLevel (MsgNotJSON lineNum err) st)).
Proof.
  intros Hin Hlow Hns.
  assert (H : TrimSpace_is_empty line = false)
    by (apply (visible_byte_not_blank_bounded _ line a (Nat.le_refl _)); assumption).
  split; [exact H|].
  intros err Hdec. unfold lineStep. rewrite H, Hdec. reflexivity.
Qed.

Lemma visible_byte_not_blank_witness :
  TrimSpace_is_empty "  x "%string = false.
Proof.
  apply (visible_byte_not_blank Sample.config (Sample.world [] Sample.status200)
           "  x "%string "x"%char 1 [] init).
  - simpl. right. right. left. reflexivity.
  - vm_compute. lia.
  - reflexivity.
Defined.

(** ** What is written *)




(** ** The exit status of the command *)

(** X13. The command hands its flags to the processor field by field, and
    its exit status tells file problems only: it is 0, with the closing
    message of success, exactly when the input file opens and scans without
    error and the output file can be created, and 1 otherwise; no failed
    delivery changes it. *)
Theorem exit_status_reflects_files (f : Cmd.Flags) (W : World) :
  (Cmd.exitStatus (Cmd.Run f W) = 0
   <-> exists lines,
        os_Open W (Cmd.inputFile f) = OpenOk lines None
        /\ os_Create W (Cmd.outputFile f) = None)
  /\ (Cmd.exitStatus (Cmd.Run f W) = 0 \/ Cmd.exitStatus (Cmd.Run f W) = 1)
  /\ (Cmd.closing (Cmd.Run f W) = Cmd.MsgCompleted <-> Cmd.exitStatus (Cmd.Run f W) = 0)
  /\ Cmd.processing (Cmd.Run f W)
     = snd (Process
              {| InputFile := Cmd.inputFile f;
                 OutputFile := Cmd.outputFile f;
                 Symbol := Cmd.symbol f;
                 Side := Cmd.side f;
                 Retries := Cmd.retries f;
                 Timeout := Cmd.timeout f;
                 Insecure := Cmd.insecure f;
                 BaseURL := Cmd.baseURL f |} W).
Proof.
  unfold Cmd.Run, NewProcessor.
  set (proc := {| InputFile := Cmd.inputFile f; OutputFile := Cmd.outputFile f;
                  Symbol := Cmd.symbol f; Side := Cmd.side f;
                  Retries := Cmd.retries f; Timeout := Cmd.timeout f;
                  Insecure := Cmd.insecure f; BaseURL := Cmd.baseURL f |}).
  assert (Hres : fst (Process proc W) = None
                 <-> exists lines,
                      os_Open W (Cmd.inputFile f) = OpenOk lines None
                      /\ os_Create W (Cmd.outputFile f) = None).
  { unfold Process. change (InputFile proc) with (Cmd.inputFile f).
    change (OutputFile proc) with (Cmd.outputFile f).
    destruct (os_Open W (Cmd.inputFile f)) as [err|lines scanErr].
    - split; [discriminate|intros [l [H _]]; discriminate H].
    - destruct (os_Create W (Cmd.outputFile f)) as [err|].
      + split; [discriminate|intros [l [_ H]]; discriminate H].
      + destruct (scanLoop proc W lines 0 [] init) as [q st].
        destruct scanErr as [err|]; simpl.
        * split; [discriminate|intros [l [H _]]; discriminate H].
        * split; [intros _; exists lines; split; reflexivity|reflexivity]. }
  destruct (Process proc W) as [[err|] st]; cbn [fst snd] in Hres |- *;
    cbn [Cmd.exitStatus Cmd.closing Cmd.processing].
  - split; [|split; [right; reflexivity|split; [|reflexivity]]].
    + split; [discriminate|]. intros H. apply Hres in H. discriminate H.
    + split; discriminate.
  - split; [|split; [left; reflexivity|split; [|reflexivity]]].
    + split; [intros _; apply Hres; reflexivity|reflexivity].
    + split; reflexivity.
Qed.

(** ** How the handling of an order ends *)

Ltac no_report :=
  repeat (constructor; [intros [H|H]; discriminate H|]); constructor.

Lemma handleResponse_outcome (p : Processor) (W : World) (order : Order) (code : Z)
      (body : ReadAllResult) (st : State) :
  (fst (handleResponse W order code body st) = None
   /\ exists b,
       trace (snd (handleResponse W order code body st))
       = trace st ++ [EvWrite (b ++ newline)%string;
                      EvLog InfoLevel (MsgSuccess (OrderID order))])
  \/ (fst (handleResponse W order code body st) <> None
      /\ exists evs,
          trace (snd (handleResponse W order code body st)) = trace st ++ evs
          /\ Forall (fun e => ~ isReportOf order e) evs).
Proof.
  unfold handleResponse. destruct (non2XX code).
  - right. split; [discriminate|]. exists []. rewrite app_nil_r.
    split; [reflexivity|constructor].
  - destruct body as [b|err].
    + unfold Fprintf. destruct (file_Write W _ _) as [|n err]; simpl.
      * left. split; [reflexivity|]. exists b. rewrite <- app_assoc. reflexivity.
      * right. split; [discriminate|]. eexists [_]. split; [reflexivity|].
        unfold isReportOf. no_report.
    + right. split; [discriminate|]. exists []. rewrite app_nil_r.
      split; [reflexivity|constructor].
Qed.

(** A call to [processOrder] that returns [nil] ends with the request, the
    write and the success message; before them, and in a call that returns
    an error, there is no final report. *)
Lemma processOrder_outcome (p : Processor) (W : World) (order : Order)
      (retryCount : Z) (st : State) :
  (fst (processOrder p W order retryCount st) = None
   /\ exists evs body,
       trace (snd (processOrder p W order retryCount st))
       = trace st ++ evs ++ delivery p order body
       /\ Forall (fun e => ~ isReportOf order e) evs)
  \/ (fst (processOrder p W order retryCount st) <> None
      /\ exists evs,
          trace (snd (processOrder p W order retryCount st)) = trace st ++ evs
          /\ Forall (fun e => ~ isReportOf order e) evs).
Proof.
  apply (processOrder_elim p W
           (fun order _ st r =>
              (fst r = None
               /\ exists evs body,
                   trace (snd r) = trace st ++ evs ++ delivery p order body
                   /\ Forall (fun e => ~ isReportOf order e) evs)
              \/ (fst r <> None
                  /\ exists evs,
                      trace (snd r) = trace st ++ evs
                      /\ Forall (fun e => ~ isReportOf order e) evs))).
  - intros o rc s code body _.
    destruct (handleResponse_outcome p W o code body (emit (EvGet (requestURL p o)) s))
      as [[Hn [b Ht]]|[Hn [evs [Ht Hf]]]].
    + left. split; [exact Hn|]. exists [], b. rewrite Ht. simpl.
      rewrite <- app_assoc. split; [reflexivity|constructor].
    + right. split; [exact Hn|]. exists (EvGet (requestURL p o) :: evs).
      rewrite Ht. simpl. rewrite <- app_assoc. split; [reflexivity|].
      constructor; [intros [H|H]; discriminate H|exact Hf].
  - intros o rc l s err IH _ _.
    set (pre := [EvGet (requestURL p o);
                 EvLog DebugLevel (MsgRetryCount rc (Retries p));
                 EvLog WarnLevel (MsgRequestFailed (OrderID o) (rc + 1) (Retries p) err);
                 EvSleep (mul Second (rc + 1))]).
    assert (Hpre : trace (backoff p o rc err (emit (EvGet (requestURL p o)) s))
                   = trace s ++ pre)
      by (unfold pre; simpl; rewrite <- !app_assoc; reflexivity).
    assert (Hno : Forall (fun e => ~ isReportOf o e) pre)
      by (unfold pre, isReportOf; no_report).
    destruct IH as [[Hn [evs [b [Ht Hf]]]]|[Hn [evs [Ht Hf]]]].
    + left. split; [exact Hn|]. exists (pre ++ evs), b.
      rewrite Ht, Hpre, <- !app_assoc. split; [reflexivity|].
      apply Forall_app. split; assumption.
    + right. split; [exact Hn|]. exists (pre ++ evs).
      rewrite Ht, Hpre, <- !app_assoc. split; [reflexivity|].
      apply Forall_app. split; assumption.
  - intros o rc n s err _ _. right. split; [discriminate|].
    exists [EvGet (requestURL p o)]. split; [reflexivity|].
    unfold isReportOf. no_report.
Qed.

Lemma retryLoop_outcome (p : Processor) (W : World) (order : Order)
      (retryAttempts : Z) (st : State) :
  (Retries p <= fst (retryLoop p W order retryAttempts st)
   /\ exists evs,
       trace (snd (retryLoop p W order retryAttempts st)) = trace st ++ evs
       /\ Forall (fun e => ~ isReportOf order e) evs)
  \/ (fst (retryLoop p W order retryAttempts st) < Retries p
      /\ exists evs body,
          trace (snd (retryLoop p W order retryAttempts st))
          = trace st ++ evs ++ delivery p order body
          /\ Forall (fun e => ~ isReportOf order e) evs).
Proof.
  apply (retryLoop_elim p W
           (fun order _ st r =>
              (Retries p <= fst r
               /\ exists evs,
                   trace (snd r) = trace st ++ evs
                   /\ Forall (fun e => ~ isReportOf order e) evs)
              \/ (fst r < Retries p
                  /\ exists evs body,
                      trace (snd r) = trace st ++ evs ++ delivery p order body
                      /\ Forall (fun e => ~ isReportOf order e) evs))).
  - intros o ra n s _. left. split; [simpl; lia|].
    exists []. rewrite app_nil_r. split; [reflexivity|constructor].
  - intros o ra l s err st1 IH Hcall _.
    destruct (processOrder_outcome p W o ra
                (log InfoLevel (MsgRetryAttempt (ra + 1) (Retries p) (OrderID o)) s))
      as [[Hn _]|[_ [evs1 [Ht1 Hf1]]]];
      rewrite Hcall in *; [discriminate Hn|]. cbn [snd] in Ht1.
    set (pre := EvLog InfoLevel (MsgRetryAttempt (ra + 1) (Retries p) (OrderID o))
                  :: evs1 ++ [EvLog WarnLevel (MsgRetryFailed (OrderID o) err)]).
    assert (Hpre : trace (log WarnLevel (MsgRetryFailed (OrderID o) err) st1)
                   = trace s ++ pre)
      by (unfold pre; simpl; rewrite Ht1; simpl; rewrite <- !app_assoc; reflexivity).
    assert (Hno : Forall (fun e => ~ isReportOf o e) pre).
    { unfold pre. constructor; [intros [H|H]; discriminate H|].
      apply Forall_app. split; [exact Hf1|]. unfold isReportOf. no_report. }
    destruct IH as [[Hr [evs [Ht Hf]]]|[Hr [evs [b [Ht Hf]]]]].
    + left. split; [exact Hr|]. exists (pre ++ evs).
      rewrite Ht, Hpre, <- app_assoc. split; [reflexivity|].
      apply Forall_app. split; assumption.
    + right. split; [exact Hr|]. exists (pre ++ evs), b.
      rewrite Ht, Hpre, <- !app_assoc. split; [reflexivity|].
      apply Forall_app. split; assumption.
  - intros o ra l s st1 Hcall _.
    destruct (processOrder_outcome p W o ra
                (log InfoLevel (MsgRetryAttempt (ra + 1) (Retries p) (OrderID o)) s))
      as [[_ [evs1 [b [Ht1 Hf1]]]]|[Hn _]];
      rewrite Hcall in *; [|exfalso; apply Hn; reflexivity]. cbn [snd] in Ht1.
    right. split; [simpl; exact l|].
    exists (EvLog InfoLevel (MsgRetryAttempt (ra + 1) (Retries p) (OrderID o)) :: evs1), b.
    cbn [snd]. rewrite Ht1. simpl. rewrite <- !app_assoc. split; [reflexivity|].
    constructor; [intros [H|H]; discriminate H|exact Hf1].
Qed.

(** X14. The replay of a queued order ends with exactly one final report
    on it, and the report is the last thing the replay of that order does:
    either the success message, which directly follows the request that was
    answered and the write of its body, or the message that the maximum of
    retries is exceeded; no other report on the order precedes it. *)
Theorem replay_ends_with_one_report (p : Processor) (W : World) (order : Order)
        (st : State) :
  exists evs,
    Forall (fun e => ~ isReportOf order e) evs
    /\ ((exists body,
            trace (retryOrder p W order st) = trace st ++ evs ++ delivery p order body)
        \/ trace (retryOrder p W order st)
           = trace st ++ evs ++ [EvLog ErrorLevel (MsgExceeded (OrderID order))]).
Proof.
  unfold retryOrder.
  destruct (retryLoop_outcome p W order 0 st)
    as [[Hr [evs [Ht Hf]]]|[Hr [evs [b [Ht Hf]]]]];
    destruct (retryLoop p W order 0 st) as [ra st1]; cbn [fst snd] in Hr, Ht;
    exists evs; (split; [exact Hf|]).
  - right. destruct (Z.geb_spec ra (Retries p)) as [G|G]; [|lia].
    simpl. rewrite Ht, <- app_assoc. reflexivity.
  - left. exists b. destruct (Z.geb_spec ra (Retries p)) as [G|G]; [lia|exact Ht].
Qed.

(** X15. A line that yields a kept order leaves the first pass in one of
    two ways: the order is delivered (the processing of the line ends with
    the request, the write and the success message, and the queue is as it
    was), or the order is put at the end of the retry queue (the processing
    ends with the warning that says so); a final report on the order occurs
    nowhere else in the processing of the line. *)
Theorem first_pass_delivers_or_queues
        (p : Processor) (W : World) (line : string) (lineNum : Z)
        (retryQueue : list Order) (st : State) (order : Order) :
  TrimSpace_is_empty line = false ->
  json_Unmarshal W line = inl order ->
  matches p order = true ->
  let r := lineStep p W line lineNum retryQueue st in
  exists evs,
    Forall (fun e => ~ isReportOf order e) evs
    /\ ((fst r = retryQueue
         /\ exists body, trace (snd r) = trace st ++ evs ++ delivery p order body)
        \/ (fst r = retryQueue ++ [order]
            /\ exists err,
                trace (snd r)
                = trace st ++ evs ++ [EvLog WarnLevel (MsgAddToQueue (OrderID order) err)])).
Proof.
  intros Hblank Hdec Hm r. unfold r, lineStep. rewrite Hblank, Hdec, Hm.
  destruct (processOrder_outcome p W order 0 (log InfoLevel (MsgProcessing order) st))
    as [[Hn [evs [b [Ht Hf]]]]|[Hn [evs [Ht Hf]]]];
    destruct (processOrder p W order 0 _) as [[err|] st1]; cbn [fst snd] in Hn, Ht;
    try discriminate Hn; try (exfalso; apply Hn; reflexivity);
    exists (EvLog InfoLevel (MsgProcessing order) :: evs);
    (split; [constructor; [intros [H|H]; discriminate H|exact Hf]|]).
  - left. split; [reflexivity|]. exists b. cbn [snd]. rewrite Ht. simpl.
    rewrite <- !app_assoc. reflexivity.
  - right. split; [reflexivity|]. exists err. cbn [snd]. simpl. rewrite Ht. simpl.
    rewrite <- !app_assoc. reflexivity.
Qed.

Lemma first_pass_delivers_or_queues_witness :
  exists evs,
    Forall (fun e => ~ isReportOf Sample.order1 e) evs
    /\ ((fst (lineStep Sample.config (Sample.world [] Sample.status200)
                (Sample.jsonLine "1" "TSLA" "sell") 1 [] init) = []
         /\ exists body,
             trace (snd (lineStep Sample.config (Sample.world [] Sample.status200)
                           (Sample.jsonLine "1" "TSLA" "sell") 1 [] init))
             = trace init ++ evs ++ delivery Sample.config Sample.order1 body)
        \/ (fst (lineStep Sample.config (Sample.world [] Sample.status200)
                   (Sample.jsonLine "1" "TSLA" "sell") 1 [] init) = [] ++ [Sample.order1]
            /\ exists err,
                trace (snd (lineStep Sample.config (Sample.world [] Sample.status200)
                              (Sample.jsonLine "1" "TSLA" "sell") 1 [] init))
                = trace init ++ evs
                    ++ [EvLog WarnLevel (MsgAddToQueue (OrderID Sample.order1) err)])).
Proof.
  apply (first_pass_delivers_or_queues Sample.config (Sample.world [] Sample.status200)
           (Sample.jsonLine "1" "TSLA" "sell") 1 [] init Sample.order1);
    reflexivity.
Defined.

(** ** How many requests a run can send *)

Lemma subsequence_length {A : Type} (l1 l2 : list A) :
  subsequence l1 l2 -> (List.length l1 <= List.length l2)%nat.
Proof. induction 1; simpl; lia. Qed.

Lemma retry_queue_length (p : Processor) (W : World) (lines : list string) :
  (List.length (fst (scanLoop p W lines 0 [] init))
   <= List.length (keptOrders p W lines))%nat.
Proof.
  destruct (scanLoop_queue_subsequence p W lines 0 [] init) as [added [Ha Hs]].
  rewrite Ha. apply subsequence_length, Hs.
Qed.

Lemma retryOrder_request_bound (p : Processor) (W : World) (order : Order) (st : State) :
  2 * (Z.of_nat (List.length (gets (trace (retryOrder p W order st))))
       - Z.of_nat (List.length (gets (trace st))))
  <= Z.max 0 (Retries p) * (Z.max 0 (Retries p) + 3).
Proof.
  pose proof (retryLoop_request_bound p W order _ 0 st eq_refl) as H.
  replace (Z.of_nat (Z.to_nat (Retries p - 0))) with (Z.max 0 (Retries p)) in H by lia.
  unfold retryOrder. destruct (retryLoop p W order 0 st) as [ra st1]. cbn [snd] in H.
  destruct (ra >=? Retries p); [rewrite gets_log|]; exact H.
Qed.

Lemma fold_retryOrder_request_bound (p : Processor) (W : World) (queue : list Order) :
  forall st,
    2 * (Z.of_nat (List.length
                     (gets (trace (fold_left (fun s o => retryOrder p W o s) queue st))))
         - Z.of_nat (List.length (gets (trace st))))
    <= Z.of_nat (List.length queue) * (Z.max 0 (Retries p) * (Z.max 0 (Retries p) + 3)).
Proof.
  induction queue as [|o q IH]; intros st;
    [cbn [fold_left List.length]; change (Z.of_nat 0) with 0; lia|].
  cbn [fold_left]. specialize (IH (retryOrder p W o st)).
  pose proof (retryOrder_request_bound p W o st) as H.
  cbn [List.length]. rewrite Nat2Z.inj_succ. nia.
Qed.

Lemma lineStep_request_bound (p : Processor) (W : World) (line : string)
      (lineNum : Z) (retryQueue : list Order) (st : State) :
  Z.of_nat (List.length (gets (trace (snd (lineStep p W line lineNum retryQueue st)))))
  - Z.of_nat (List.length (gets (trace st)))
  <= Z.of_nat (List.length (keptOrders p W [line])) * (Z.max 0 (Retries p) + 1).
Proof.
  unfold lineStep, keptOrders. cbn [flat_map]. rewrite app_nil_r.
  destruct (TrimSpace_is_empty line); [cbn [snd List.length]; lia|].
  destruct (json_Unmarshal W line) as [order|err];
    [|cbn [snd List.length]; rewrite gets_log; lia].
  destruct (matches p order); [|cbn [snd List.length]; lia].
  destruct (processOrder_gets_sleeps p W order 0
              (log InfoLevel (MsgProcessing order) st)) as [j [Hj [Hg _]]].
  rewrite gets_log in Hg. apply (f_equal (@List.length string)) in Hg.
  rewrite length_app, repeat_length in Hg.
  destruct (processOrder p W order 0 _) as [[err|] st1]; cbn [snd] in Hg |- *;
    rewrite ?gets_log, Hg; cbn [List.length]; lia.
Qed.

Lemma scanLoop_request_bound (p : Processor) (W : World) (lines : list string) :
  forall lineNum retryQueue st,
    Z.of_nat (List.length (gets (trace (snd (scanLoop p W lines lineNum retryQueue st)))))
    - Z.of_nat (List.length (gets (trace st)))
    <= Z.of_nat (List.length (keptOrders p W lines)) * (Z.max 0 (Retries p) + 1).
Proof.
  induction lines as [|line rest IH]; intros n q st;
    [cbn [scanLoop snd keptOrders flat_map List.length]; change (Z.of_nat 0) with 0; lia|].
  cbn [scanLoop]. rewrite keptOrders_cons, length_app, Nat2Z.inj_add.
  pose proof (lineStep_request_bound p W line (add n 1) q st) as H.
  destruct (lineStep p W line (add n 1) q st) as [q1 st1]. cbn [snd] in H.
  specialize (IH (add n 1) q1 st1). nia.
Qed.

(** X16. Whatever the collaborators do, a run sends at most
    [K * (R + 1 + R * (R + 3) / 2)] requests, [K] being the number of kept
    orders of the input and [R] the retry budget (0 when it is negative):
    at most [R + 1] per kept order in the first pass and at most
    [R * (R + 3) / 2] per queued order in the replay. *)
Theorem run_request_bound
        (p : Processor) (W : World) (lines : list string) (scanErr : option string) :
  os_Open W (InputFile p) = OpenOk lines scanErr ->
  let R := Z.max 0 (Retries p) in
  let K := Z.of_nat (List.length (keptOrders p W lines)) in
  2 * Z.of_nat (List.length (gets (trace (snd (Process p W)))))
  <= K * (R * R + 5 * R + 2).
Proof.
  intros Ho R K. unfold Process. rewrite Ho.
  assert (HR : 0 <= R) by (unfold R; lia).
  assert (HK : 0 <= K) by (unfold K; lia).
  destruct (os_Create W (OutputFile p)) as [err|];
    [cbn [snd init trace gets flat_map List.length]; change (Z.of_nat 0) with 0; nia|].
  pose proof (scanLoop_request_bound p W lines 0 [] init) as H1.
  pose proof (retry_queue_length p W lines) as HQ.
  destruct (scanLoop p W lines 0 [] init) as [q st]. cbn [fst snd] in H1, HQ.
  change (Z.of_nat (List.length (gets (trace init)))) with 0 in H1.
  fold R K in H1.
  destruct scanErr as [err|]; cbn [snd]; [nia|].
  unfold processRetryQueue. destruct q as [|o q]; [nia|].
  pose proof (fold_retryOrder_request_bound p W (o :: q)
                (log InfoLevel (MsgQueue (Z.of_nat (List.length (o :: q)))) st)) as H2.
  rewrite gets_log in H2. fold R in H2.
  assert (HQ' : Z.of_nat (List.length (o :: q)) <= K) by (unfold K; lia).
  nia.
Qed.

Lemma run_request_bound_witness :
  2 * Z.of_nat (List.length
                  (gets (trace (snd (Process Sample.config
                                       (Sample.world [Sample.jsonLine "1" "TSLA" "sell"]
                                                     Sample.refused))))))
  <= 1 * (2 * 2 + 5 * 2 + 2).
Proof.
  apply (run_request_bound Sample.config
           (Sample.world [Sample.jsonLine "1" "TSLA" "sell"] Sample.refused)
           [Sample.jsonLine "1" "TSLA" "sell"] None).
  reflexivity.
Defined.

Lemma requestURL_injective_witness :
  OrderID Sample.order1 = OrderID (Sample.order "1" "AAPL" "buy").
Proof.
  apply (proj1 (requestURL_injective Sample.config Sample.order1
                  (Sample.order "1" "AAPL" "buy"))).
  reflexivity.
Defined.

Lemma exit_status_reflects_files_witness :
  Cmd.exitStatus
    (Cmd.Run Cmd.defaultFlags
       (Sample.world [Sample.jsonLine "1" "TSLA" "sell"] Sample.refused)) = 0.
Proof.
  apply (proj2 (proj1 (exit_status_reflects_files Cmd.defaultFlags
                         (Sample.world [Sample.jsonLine "1" "TSLA" "sell"]
                                       Sample.refused)))).
  exists [Sample.jsonLine "1" "TSLA" "sell"]. split; reflexivity.
Defined.
